(** * random-access-storage-from: the [from] dispatcher

    A shallow embedding of the module's main file (the function [from] with
    its helpers [isBufferLike] and [isNumber]) and of the provider table of
    [providers.js].

    JavaScript objects live in a store and are handled through references,
    so that the identity of an object and the aliasing between the caller's
    options record and the local [opts] are visible.  Their properties are
    data properties, and a read has no effect; an object may be frozen, and
    then an assignment to one of its properties does nothing (the module is
    not in strict mode).  Everything the dispatcher calls but does not define
    (Node's [url], [fs] and [Buffer], the [is-browser] flag, the provider
    functions, the [random-access-storage] constructor and factory functions
    given as input) belongs to a [Platform] record; [Buffer.alloc] and
    [Buffer.from] on arrays of numbers are written out as Node documents
    them.  The call stack is finite: a call of [from] with no room left on
    it fails. *)

From Stdlib Require Import QArith Qround.
From Stdlib.Strings Require Import Byte String.
From stdpp Require Import gmap strings list.

Open Scope Z_scope.

(** ** Values *)

(** A JavaScript number.  Every double is one of these: the finite ones are
    rationals, and the sign of zero plays no part in the dispatcher. *)
Inductive number :=
  | NaN
  | Infinity (negative : bool)
  | Finite (q : Q).

Abbreviation loc := positive.

(** Function values are opaque: what a call does is the platform's [apply].
    [ObjectProto name] is the method [name] every plain object inherits from
    [Object.prototype]; [Ras] is the [random-access-storage] constructor. *)
Inductive fn :=
  | UserFn (id : nat)
  | ObjectProto (name : string)
  | Ras.

Inductive value :=
  | VUndefined
  | VNull
  | VBool (b : bool)
  | VNum (n : number)
  | VStr (s : string)
  | VSymbol (id : nat)
  | VObj (l : loc)
  | VFun (f : fn).

(** What an object is besides its properties. *)
Inductive kind :=
  | KPlain
  | KArray (elems : list value)
  | KBuffer (bytes : list byte)
  | KArrayBuffer (bytes : list byte).

(** [oprops o !! k] is the value of the expression [o.k]; an absent key
    reads as [undefined]. *)
Record object := Object {
  okind : kind;
  oprops : gmap string value
}.

Definition empty_object : object := Object KPlain ∅.

(** [StackOverflow] is the range error of an exhausted call stack,
    [RangeError] any other one. *)
Inductive error :=
  | TypeError
  | RangeError
  | StackOverflow
  | URIError
  | SystemError (code : string)
  | Thrown (v : value).

(** The outcome of an expression: a value, an exception, or no outcome at
    all (a call that does not return). *)
Inductive result (A : Type) :=
  | Ok (a : A)
  | Throw (e : error)
  | Diverge.
Arguments Ok {A} a.
Arguments Throw {A} e.
Arguments Diverge {A}.

(** What the dispatcher does to the outside world by itself. *)
Inductive io_event :=
  | FsAccess (path : string)
  | FsStat (path : string)
  | Debug (e : error).

(** [frozen] holds the references of the objects whose properties cannot
    be assigned ([Object.freeze]). *)
Record state := State {
  heap : gmap loc object;
  providers : gmap string value;
  io : list io_event;
  frozen : gset loc
}.

(** ** The platform *)

Record Platform := {
  (** [require('is-browser')] *)
  isBrowser : bool;
  (** [buffer.constants.MAX_LENGTH] *)
  kMaxLength : Z;
  (** whether the memory of an array buffer of that many bytes can be had *)
  has_memory : Z → bool;
  (** [url.parse(input)], of which [from] reads [protocol] and [pathname];
      [None] is [null] *)
  url_parse : string → result (option string * option string);
  (** [fs.accessSync(path)] *)
  fs_accessSync : string → result unit;
  (** [fs.statSync(path).isFile()] *)
  fs_statSync_isFile : string → result bool;
  (** [Buffer.from(string, encoding)] *)
  Buffer_from_string : string → value → result (list byte);
  (** [Buffer.from(arrayBuffer, byteOffset, length)] *)
  Buffer_from_arrayBuffer : list byte → value → value → result (list byte);
  (** [Buffer.from(object)] where the bytes depend on conversions of
      non-numeric elements or on indexed properties *)
  Buffer_from_exotic : gmap loc object → object → result (list byte);
  (** a call [f(args)] of a function value *)
  apply : fn → list value → state → state * result value
}.

(** ** Computations: state and exceptions *)

Definition M (A : Type) : Type := state → state * result A.

#[global] Instance M_ret : MRet M := λ A a st, (st, Ok a).

#[global] Instance M_bind : MBind M := λ A B f m st,
  match m st with
  | (st', Ok a) => f a st'
  | (st', Throw e) => (st', Throw e)
  | (st', Diverge) => (st', Diverge)
  end.

#[global] Instance M_fmap : FMap M := λ A B f m, a ← m; mret (f a).

Definition lift {A} (r : result A) : M A := λ st, (st, r).

Definition throw {A} (e : error) : M A := lift (Throw e).

(** [try { m } catch (err) { h err }] *)
Definition try_catch {A} (m : M A) (h : error → M A) : M A := λ st,
  match m st with
  | (st', Throw e) => h e st'
  | r => r
  end.

Definition get_heap : M (gmap loc object) := λ st, (st, Ok (heap st)).

Definition log (ev : io_event) : M unit := λ st,
  (State (heap st) (providers st) (io st ++ [ev]) (frozen st), Ok tt).

Definition deref (h : gmap loc object) (l : loc) : object :=
  default empty_object (h !! l).

(** A new object, at a reference not yet in use; it is not frozen. *)
Definition alloc (o : object) : M loc := λ st,
  let l := fresh (dom (heap st) ∪ frozen st) in
  (State (<[l := o]> (heap st)) (providers st) (io st) (frozen st), Ok l).

Definition prop (o : object) (k : string) : value :=
  default VUndefined (oprops o !! k).

(** [l.k] *)
Definition get (l : loc) (k : string) : M value := λ st,
  (st, Ok (prop (deref (heap st) l) k)).

Definition put (o : object) (k : string) (v : value) : object :=
  Object (okind o) (<[k := v]> (oprops o)).

(** [l.k = v]: on a frozen object the assignment does nothing, and does
    not throw. *)
Definition set (l : loc) (k : string) (v : value) : M unit := λ st,
  if decide (l ∈ frozen st) then (st, Ok tt)
  else (State (<[l := put (deref (heap st) l) k v]> (heap st))
              (providers st) (io st) (frozen st), Ok tt).

(** Inside a block of [from]: [returns m] is [return m], [next_rule] goes on
    to the statement after the block. *)
Definition returns (m : M value) : M (option value) := Some <$> m.

Definition next_rule : M (option value) := mret None.

(** ** Operators *)

Definition truthy (v : value) : bool :=
  match v with
  | VUndefined | VNull => false
  | VBool b => b
  | VNum NaN => false
  | VNum (Infinity _) => true
  | VNum (Finite q) => negb (Qeq_bool q 0)
  | VStr s => negb (String.eqb s "")
  | VSymbol _ | VObj _ | VFun _ => true
  end.

(** ['string' === typeof v] *)
Definition is_string (v : value) : bool :=
  match v with VStr _ => true | _ => false end.

(** ['function' === typeof v] *)
Definition is_function (v : value) : bool :=
  match v with VFun _ => true | _ => false end.

(** [true === v] *)
Definition is_true (v : value) : bool :=
  match v with VBool true => true | _ => false end.

(** [!encoding || 'string' !== typeof encoding] *)
Definition needs_default (encoding : value) : bool :=
  negb (truthy encoding) || negb (is_string encoding).

(** [v || 0] *)
Definition or_zero (v : value) : value :=
  if truthy v then v else VNum (Finite 0).

(** [n >= 0] *)
Definition ge_zero (n : number) : bool :=
  match n with
  | NaN => false
  | Infinity negative => negb negative
  | Finite q => Qle_bool 0 q
  end.

Fixpoint has_infix (pat s : string) : bool :=
  String.prefix pat s ||
  match s with
  | EmptyString => false
  | String _ s' => has_infix pat s'
  end.

(** [/https?:/.test(protocol)] *)
Definition re_https_test (protocol : string) : bool :=
  has_infix "http:" protocol || has_infix "https:" protocol.

(** [/file:/.test(protocol)] *)
Definition re_file_test (protocol : string) : bool :=
  has_infix "file:" protocol.

(** [protocol.slice(0, -1)] *)
Definition slice_0_m1 (s : string) : string :=
  String.substring 0 (String.length s - 1) s.

Definition of_null (s : option string) : value :=
  match s with Some s => VStr s | None => VNull end.

(** ** The provider table *)

(** The function-valued names a plain object inherits.  ([__proto__] is
    inherited too, but it reads as an object and is therefore never
    called.) *)
Definition Object_prototype_methods : list string :=
  [ "constructor"; "hasOwnProperty"; "isPrototypeOf"; "propertyIsEnumerable";
    "toLocaleString"; "toString"; "valueOf"; "__defineGetter__";
    "__defineSetter__"; "__lookupGetter__"; "__lookupSetter__" ].

Definition inherited (name : string) : bool :=
  bool_decide (name ∈ Object_prototype_methods).

(** [name in providers] *)
Definition providers_in (name : string) : M bool := λ st,
  (st, Ok (bool_decide (is_Some (providers st !! name)) || inherited name)).

(** [providers[name]] *)
Definition provider (table : gmap string value) (name : string) : value :=
  match table !! name with
  | Some v => v
  | None => if inherited name then VFun (ObjectProto name) else VUndefined
  end.

Definition providers_get (name : string) : M value := λ st,
  (st, Ok (provider (providers st) name)).

(** The table [providers.js] exports, given the functions it requires. *)
Definition providers_js (memory http file : value) : gmap string value :=
  <["default" := memory]>
    (<["file" := file]> (<["http" := http]> {["memory" := memory]})).

(** ** Buffers *)

Definition zero_byte : byte := "000"%byte.

Definition byte_of_Z (z : Z) : byte :=
  default zero_byte (Byte.of_N (Z.to_N (z mod 256))).

(** The conversion a typed array applies to a number stored in it. *)
Definition ToUint8 (n : number) : byte :=
  match n with
  | Finite q => byte_of_Z (Z.quot (Qnum q) (Zpos (Qden q)))
  | _ => zero_byte
  end.

Definition isNumber (input : value) : bool :=
  match input with
  | VNum NaN => false
  | VNum _ => true
  | _ => false
  end.

Definition number_of (v : value) : number :=
  match v with VNum n => n | _ => NaN end.

Section Dispatcher.

Variable P : Platform.

(** [Buffer.alloc(size)]: a size outside [0, MAX_LENGTH] is a range error,
    and so is a size within it for which the memory cannot be had; a
    fractional size is truncated. *)
Definition Buffer_alloc (size : number) : result (list byte) :=
  match size with
  | Finite q =>
      if Qle_bool 0 q && Qle_bool q (inject_Z (kMaxLength P))
      then if has_memory P (Qfloor q)
           then Ok (replicate (Z.to_nat (Qfloor q)) zero_byte)
           else Throw RangeError
      else Throw RangeError
  | _ => Throw RangeError
  end.

(** [Array.isArray(v)] *)
Definition isArray (h : gmap loc object) (v : value) : bool :=
  match v with
  | VObj l => match okind (deref h l) with KArray _ => true | _ => false end
  | _ => false
  end.

Definition elements (h : gmap loc object) (v : value) : list value :=
  match v with
  | VObj l => match okind (deref h l) with KArray es => es | _ => [] end
  | _ => []
  end.

Definition from_elements (h : gmap loc object) (o : object)
    (es : list value) : result (list byte) :=
  if forallb isNumber es then Ok (map (λ v, ToUint8 (number_of v)) es)
  else Buffer_from_exotic P h o.

(** [Buffer.from(input, encoding)] for an input that is neither a string
    nor an [ArrayBuffer]: an object with a length is read as an array,
    otherwise a [{ type: 'Buffer', data: [...] }] record is read from its
    data.  The encoding plays no part. *)
Definition Buffer_from_object (h : gmap loc object) (input : value)
    : result (list byte) :=
  match input with
  | VObj l =>
      let o := deref h l in
      match okind o with
      | KBuffer bytes => Ok bytes
      | KArrayBuffer bytes => Ok bytes
      | KArray es => from_elements h o es
      | KPlain =>
          match prop o "length" with
          | VUndefined => from_elements h o (elements h (prop o "data"))
          | _ => Buffer_from_exotic P h o
          end
      end
  | _ => Throw TypeError
  end.

(** [input instanceof ArrayBuffer], with the region it holds *)
Definition ArrayBuffer_region (h : gmap loc object) (input : value)
    : option (list byte) :=
  match input with
  | VObj l =>
      match okind (deref h l) with
      | KArrayBuffer region => Some region
      | _ => None
      end
  | _ => None
  end.

(** ** [isBufferLike] *)

Definition isBufferLike (h : gmap loc object) (input : value) : bool :=
  match input with
  | VObj l =>
      let o := deref h l in
      match okind o with
      | KBuffer _ => true
      | KArrayBuffer _ => true
      | _ =>
          match prop o "type" with
          | VStr t => String.eqb "Buffer" t && isArray h (prop o "data")
          | _ => false
          end
          || (isArray h input && forallb isNumber (elements h input))
      end
  | _ => false
  end.

(** ** [from] *)

Definition DEFAULT_ENCODING : string := "utf8".

(** [f(args)]: calling what is not a function is a type error. *)
Definition call (f : value) (args : list value) : M value :=
  match f with
  | VFun f => apply P f args
  | _ => throw TypeError
  end.

(** The first lines of [from]: which record [opts] is. *)
Definition options_record (optsOrEncoding : value) : M loc :=
  opts ← alloc empty_object;
  opts ← match optsOrEncoding with
         | VStr encoding =>
             alloc (Object KPlain {["encoding" := VStr encoding]})
         | _ => mret opts
         end;
  mret match optsOrEncoding with VObj l => l | _ => opts end.

(** [if (!opts.encoding || 'string' !== typeof opts.encoding) ...] *)
Definition default_encoding (opts : loc) : M unit :=
  encoding ← get opts "encoding";
  if needs_default encoding
  then set opts "encoding" (VStr DEFAULT_ENCODING)
  else mret tt.

Definition normalize (optsOrEncoding : value) : M loc :=
  opts ← options_record optsOrEncoding;
  default_encoding opts;;
  mret opts.

(** String input, step 3. *)
Definition from_protocol (input : string) (opts : loc)
    (protocol pathname : option string) : M (option value) :=
  match protocol with
  | Some protocol =>
      if truthy (VStr protocol) then
        let protocolName := slice_0_m1 protocol in
        if re_https_test protocol then
          http ← providers_get "http";
          returns $ call http [VStr input; VObj opts]
        else if re_file_test protocol then
          file ← providers_get "file";
          returns $ call file [of_null pathname]
        else
          known ← providers_in protocolName;
          if (known : bool) then
            provider ← providers_get protocolName;
            if is_function provider
            then returns $ call provider [VStr input; VObj opts]
            else next_rule
          else next_rule
      else next_rule
  | None => next_rule
  end.

(** String input, step 4. *)
Definition from_local_file (input : string) : M (option value) :=
  if negb (isBrowser P) then
    try_catch
      (log (FsAccess input);;
       lift (fs_accessSync P input);;
       log (FsStat input);;
       isFile ← lift (fs_statSync_isFile P input);
       if (isFile : bool) then
         file ← providers_get "file";
         returns $ call file [VStr input]
       else next_rule)
      (λ err, log (Debug err);; next_rule)
  else next_rule.

(** String input, step 5. *)
Definition from_string_memory (input : string) (opts : loc)
    : M (option value) :=
  if (0 <? Z.of_nat (String.length input)) then
    encoding ← get opts "encoding";
    bytes ← lift (Buffer_from_string P input encoding);
    buffer ← alloc (Object (KBuffer bytes) ∅);
    memory ← providers_get "memory";
    returns $ call memory [VObj buffer]
  else next_rule.

(** The part of the string block after step 3. *)
Definition from_string_tail (input : string) (opts : loc)
    : M (option value) :=
  r ← from_local_file input;
  match r : option value with
  | Some v => mret (Some v)
  | None => from_string_memory input opts
  end.

(** The block [if ('string' === typeof input) { ... }]. *)
Definition from_string (input : string) (opts : loc) : M (option value) :=
  '(protocol, pathname) ← lift (url_parse P input);
  file ← get opts "file";
  if negb (String.length input =? 0)%nat && is_true file then
    file ← providers_get "file";
    returns $ call file [VStr input; VObj opts]
  else
    r ← from_protocol input opts protocol pathname;
    match r : option value with
    | Some v => mret (Some v)
    | None => from_string_tail input opts
    end.

(** Number input. *)
Definition from_number (input : value) : M value :=
  bytes ← lift (Buffer_alloc (number_of input));
  buffer ← alloc (Object (KBuffer bytes) ∅);
  memory ← providers_get "memory";
  call memory [VObj buffer].

(** Buffer(-like) input. *)
Definition from_bufferLike (input : value) (opts : loc) : M value :=
  h ← get_heap;
  bytes ← match ArrayBuffer_region h input with
          | Some region =>
              byteOffset ← get opts "byteOffset";
              length ← get opts "length";
              lift (Buffer_from_arrayBuffer P region (or_zero byteOffset)
                      length)
          | None => lift (Buffer_from_object h input)
          end;
  buffer ← alloc (Object (KBuffer bytes) ∅);
  memory ← providers_get "memory";
  call memory [VObj buffer].

(** Object input. *)
Definition from_object (l : loc) : M value :=
  readable ← get l "readable";
  writable ← get l "writable";
  statable ← get l "statable";
  deletable ← get l "deletable";
  if truthy readable || truthy writable || truthy statable
     || truthy deletable
  then mret (VObj l)
  else call (VFun Ras) [VObj l].

(** Everything below the string block; [self] is [from] itself. *)
Definition from_rest (self : value → value → M value) (input : value)
    (opts : loc) : M value :=
  if isNumber input && ge_zero (number_of input) then from_number input
  else
    h ← get_heap;
    if isBufferLike h input then from_bufferLike input opts
    else
      match input with
      | VObj l => from_object l
      | VFun _ =>
          next ← call input [VObj opts];
          self next (VObj opts)
      | _ =>
          default ← providers_get "default";
          call default [input; VObj opts]
      end.

(** The body of [from] below the normalization of the options. *)
Definition from_body (self : value → value → M value) (input : value)
    (opts : loc) : M value :=
  r ← match input with
      | VStr s => from_string s opts
      | _ => next_rule
      end;
  match r : option value with
  | Some v => mret v
  | None => from_rest self input opts
  end.

(** [from(input, optsOrEncoding)].  A factory may return a factory without
    end, and each one costs a call of [from] inside the last: [fuel] is the
    number of such calls the stack has room for, and a call made with no
    room left fails with the range error of the exhausted stack. *)
Fixpoint from (fuel : nat) (input optsOrEncoding : value) : M value :=
  match fuel with
  | O => throw StackOverflow
  | S fuel =>
      opts ← normalize optsOrEncoding;
      from_body (from fuel) input opts
  end.

End Dispatcher.

(** * Vocabulary of the properties *)

(** Two stores hold the same objects up to their [encoding] fields. *)
Definition same_but_encoding (h h' : gmap loc object) : Prop :=
  ∀ l, okind (deref h' l) = okind (deref h l) ∧
       ∀ k, k ≠ "encoding" → prop (deref h' l) k = prop (deref h l) k.

(** The field [k] of the second argument of [from] as the caller passes
    it. *)
Definition field (h : gmap loc object) (optsOrEncoding : value)
    (k : string) : value :=
  match optsOrEncoding with
  | VObj l => prop (deref h l) k
  | _ => VUndefined
  end.

(** The encoding in effect: the one the caller names, or the default. *)
Definition active_encoding (h : gmap loc object) (optsOrEncoding : value)
    : string :=
  match match optsOrEncoding with
        | VStr e => VStr e
        | _ => field h optsOrEncoding "encoding"
        end
  with
  | VStr e => if String.eqb e "" then DEFAULT_ENCODING else e
  | _ => DEFAULT_ENCODING
  end.

(** The caller's options are a frozen record. *)
Definition frozen_record (st : state) (optsOrEncoding : value) : bool :=
  match optsOrEncoding with
  | VObj l => bool_decide (l ∈ frozen st)
  | _ => false
  end.

(** What [opts.encoding] reads once the options are normalized: the
    encoding in effect, except that a frozen record keeps what it has. *)
Definition effective_encoding (st : state) (optsOrEncoding : value)
    : value :=
  if frozen_record st optsOrEncoding
  then field (heap st) optsOrEncoding "encoding"
  else VStr (active_encoding (heap st) optsOrEncoding).

(** The record [o] with the default in place of an [encoding] that is
    missing, falsy or not a string. *)
Definition with_default (o : object) : object :=
  if needs_default (prop o "encoding")
  then put o "encoding" (VStr DEFAULT_ENCODING)
  else o.

(** What the object at [l] is once the options are normalized: only the
    caller's options record can have changed, in its [encoding], and only
    if it is not among the frozen objects [fr]. *)
Definition after_default (fr : gset loc) (optsOrEncoding : value) (l : loc)
    (o : object) : object :=
  match optsOrEncoding with
  | VObj l' =>
      if decide (l' = l) then
        if decide (l ∈ fr) then o else with_default o
      else o
  | _ => o
  end.

(** What normalization leaves behind. *)
Record normalized (optsOrEncoding : value) (st : state) (h2 : gmap loc object)
    (opts : loc) : Prop := {
  norm_same : same_but_encoding (heap st) h2;
  norm_encoding :
    prop (deref h2 opts) "encoding" = effective_encoding st optsOrEncoding;
  norm_stored :
    frozen_record st optsOrEncoding = false → is_Some (h2 !! opts);
  norm_frozen :
    bool_decide (opts ∈ frozen st) = frozen_record st optsOrEncoding;
  norm_field : ∀ k, k ≠ "encoding" →
    prop (deref h2 opts) k = field (heap st) optsOrEncoding k;
  norm_frame : ∀ l o, heap st !! l = Some o →
    h2 !! l = Some (after_default (frozen st) optsOrEncoding l o);
  norm_object : match optsOrEncoding with VObj l => opts = l | _ => True end
}.

(** The events of the file system probe of [path]. *)
Definition probe_event (path : string) (ev : io_event) : Prop :=
  ev = FsAccess path ∨ ev = FsStat path ∨ ∃ e, ev = Debug e.

(** The probe of step 4 finds no regular file at [path], or is not made. *)
Definition no_regular_file (P : Platform) (path : string) : Prop :=
  isBrowser P = true ∨
  (∃ e, fs_accessSync P path = Throw e) ∨
  (fs_accessSync P path = Ok tt ∧
   ((∃ e, fs_statSync_isFile P path = Throw e) ∨
    fs_statSync_isFile P path = Ok false)).

(** The rules of a string after the protocols: the local file, the memory
    buffer, the default provider. *)
Definition later_string_rules (P : Platform) (input : string) (opts : loc)
    : M value :=
  r ← from_string_tail P input opts;
  match r : option value with
  | Some v => mret v
  | None =>
      default ← providers_get "default";
      call P default [VStr input; VObj opts]
  end.

Definition builtin_names : list string :=
  ["memory"; "http"; "file"; "default"].

(** The four built-in entries of the provider table are functions. *)
Definition callable_table (st : state) : Prop :=
  ∀ name, name ∈ builtin_names → ∃ f, providers st !! name = Some (VFun f).

(** [e] is thrown by a conversion of [input] on its way to a provider, with
    the objects [h] and the options record [opts] of the call: [url.parse]
    of a string and [Buffer.from] of a non-empty one under [opts.encoding],
    [Buffer.alloc] of a number that is at least zero, [Buffer.from] of a
    buffer-like object.  No other input is converted. *)
Definition conversion_error (P : Platform) (h : gmap loc object) (opts : loc)
    (input : value) (e : error) : Prop :=
  match input with
  | VStr s =>
      url_parse P s = Throw e ∨
      (s ≠ "" ∧
       Buffer_from_string P s (prop (deref h opts) "encoding") = Throw e)
  | VNum n => ge_zero n = true ∧ Buffer_alloc P n = Throw e
  | VObj l =>
      isBufferLike h input = true ∧
      match ArrayBuffer_region h input with
      | Some region =>
          Buffer_from_arrayBuffer P region
            (or_zero (prop (deref h opts) "byteOffset"))
            (prop (deref h opts) "length") = Throw e
      | None => Buffer_from_object P h input = Throw e
      end
  | _ => False
  end.

(** The state of a dispatch that has called no function and allocated
    nothing since the options were normalized: the objects are [h] and the
    provider table is [table]. *)
Definition untouched (h : gmap loc object) (table : gmap string value)
    (st : state) : Prop :=
  heap st = h ∧ providers st = table.

(** From a state in [Pre], [m] returns in [Post] or throws in [Exc]. *)
Definition hoare {A} (Pre : state → Prop) (m : M A)
    (Post : A → state → Prop) (Exc : error → state → Prop) : Prop :=
  ∀ st, Pre st →
    match m st with
    | (st', Ok a) => Post a st'
    | (st', Throw e) => Exc e st'
    | (_, Diverge) => True
    end.

(** [m] keeps the invariant [I] of the state, and throws only errors in
    [E]. *)
Definition keeps {A} (I : state → Prop) (E : error → Prop) (m : M A)
    : Prop :=
  ∀ st, I st → I (m st).1 ∧ ∀ e, (m st).2 = Throw e → E e.

(** The JavaScript array of the bytes of a buffer, [[...buffer]]; it is
    also the [data] of the buffer's JSON form. *)
Definition array_of_bytes (bytes : list byte) : list value :=
  map (λ b, VNum (Finite (inject_Z (Z.of_N (Byte.to_N b))))) bytes.

(** An input that is no string, number, object or function. *)
Definition unclassified (input : value) : bool :=
  match input with
  | VUndefined | VNull | VBool _ | VSymbol _ => true
  | _ => false
  end.

(** What [providers.js] exports, given [is-browser] and the modules
    [random-access-memory], [random-access-http], [random-access-web] and
    [random-access-file]. *)
Definition providers_exports (isBrowser : bool) (ram rah raw raf : value)
    : gmap string value :=
  providers_js ram rah (if isBrowser then raw else raf).

(** What a dispatch may log: nothing, or the probe of one string [path],
    which is the input or, when the input is a function, a string that a
    function called with an options record returned. *)
Definition probe_of (P : Platform) (input : value) (evs : list io_event)
    : Prop :=
  evs = [] ∨
  ∃ path, Forall (probe_event path) evs ∧
          (input = VStr path ∨
           (is_function input = true ∧
            ∃ f opts st, (apply P f [VObj opts] st).2 = Ok (VStr path))).

(** The state once the probe of [path] has found a regular file. *)
Definition probed (path : string) (st : state) : state :=
  State (heap st) (providers st) (io st ++ [FsAccess path; FsStat path])
        (frozen st).

(** The state once [debug(err)] has logged [e]. *)
Definition debugged (e : error) (st : state) : state :=
  State (heap st) (providers st) (io st ++ [Debug e]) (frozen st).

(** * A sample platform

    A platform to run the dispatcher on.  Its providers return a new handle
    that records which function was called with which arguments. *)
Module Sample.

Definition memory : fn := UserFn 0.
Definition http : fn := UserFn 1.
Definition file : fn := UserFn 2.
Definition data : fn := UserFn 3.

(** A factory that returns the number 3. *)
Definition three : fn := UserFn 4.

(** The results of Node's [url.parse] on the strings used below; any other
    string is taken to have no protocol. *)
Definition parse (s : string) : result (option string * option string) :=
  if String.eqb s "data:,hello" then Ok (Some "data:", Some ",hello")
  else if String.eqb s "constructor:x"
       then Ok (Some "constructor:", Some "x")
  else if String.eqb s "git+https://example.com/r"
       then Ok (Some "git+https:", Some "/r")
  else if String.eqb s "http://example.com/a"
       then Ok (Some "http:", Some "/a")
  else if String.eqb s "file:///etc/hosts"
       then Ok (Some "file:", Some "/etc/hosts")
  else if String.eqb s "" then Ok (None, None)
  else Ok (None, Some s).

(** A file system with the one regular file [/etc/hosts]. *)
Definition accessSync (path : string) : result unit :=
  if String.eqb path "/etc/hosts" then Ok tt
  else Throw (SystemError "ENOENT").

Definition isFile (path : string) : result bool :=
  if String.eqb path "/etc/hosts" then Ok true
  else Throw (SystemError "ENOENT").

(** ASCII text under [utf8]; no other encoding is known, and an encoding
    that is not a string counts as [utf8]. *)
Definition encode (s : string) (encoding : value)
    : result (list byte) :=
  match encoding with
  | VStr e => if String.eqb e "utf8" then Ok (list_byte_of_string s)
              else Throw TypeError
  | _ => Ok (list_byte_of_string s)
  end.

Definition view (region : list byte) (byteOffset length : value)
    : result (list byte) :=
  match byteOffset, length with
  | VNum (Finite q), VUndefined =>
      if Qeq_bool q 0 then Ok region else Throw RangeError
  | _, _ => Throw RangeError
  end.

Definition record_call (f : fn) (args : list value) : object :=
  Object KPlain
    (<["callee" := VFun f]>
       (<["arg0" := nth 0 args VUndefined]>
          {["arg1" := nth 1 args VUndefined]})).

Definition invoke (f : fn) (args : list value) (st : state)
    : state * result value :=
  match f with
  | UserFn 4 => (st, Ok (VNum (Finite 3)))
  | _ => (VObj <$> alloc (record_call f args)) st
  end.

Definition node : Platform := {|
  isBrowser := false;
  kMaxLength := 2 ^ 53 - 1;
  has_memory := λ size, size <=? 2 ^ 32;
  url_parse := parse;
  fs_accessSync := accessSync;
  fs_statSync_isFile := isFile;
  Buffer_from_string := encode;
  Buffer_from_arrayBuffer := view;
  Buffer_from_exotic := λ _ _, Throw TypeError;
  apply := invoke
|}.

(** The provider table as [providers.js] builds it. *)
Definition table : gmap string value :=
  providers_js (VFun memory) (VFun http) (VFun file).

(** A store with an empty options record at [1]. *)
Definition st0 : state := State {[ 1%positive := empty_object ]} table [] ∅.

(** The same with a function registered for [data:] URLs, and with the
    options [{ file: true }]. *)
Definition st_data : state :=
  State {[ 1%positive := empty_object ]} (<["data" := VFun data]> table) [] ∅.

Definition st_file : state :=
  State {[ 1%positive := Object KPlain {["file" := VBool true]} ]}
        (<["data" := VFun data]> table) [] ∅.

(** The number 42 registered for [data:] URLs. *)
Definition st_number : state :=
  State {[ 1%positive := empty_object ]}
        (<["data" := VNum (Finite 42)]> table) [] ∅.

(** A readable handle at [2]. *)
Definition st_handle : state :=
  State (<[ 2%positive := Object KPlain {["readable" := VBool true]} ]>
           {[ 1%positive := empty_object ]}) table [] ∅.

(** The array [[]] at [2]. *)
Definition st_array : state :=
  State (<[ 2%positive := Object (KArray []) ∅ ]>
           {[ 1%positive := empty_object ]}) table [] ∅.

(** The function that made the handle a dispatch returned, and the
    arguments it got. *)
Definition made_by (r : state * result value) : option fn :=
  match r.2 with
  | Ok (VObj handle) =>
      match prop (deref (heap r.1) handle) "callee" with
      | VFun f => Some f
      | _ => None
      end
  | _ => None
  end.

Definition made_from (r : state * result value) : list value :=
  match r.2 with
  | Ok (VObj handle) =>
      [prop (deref (heap r.1) handle) "arg0";
       prop (deref (heap r.1) handle) "arg1"]
  | _ => []
  end.

End Sample.

(** * More cases

    Inputs of the other kinds, and a platform whose file provider throws
    and which has a factory that returns itself. *)
Module Cases.

Definition hello : list byte := list_byte_of_string "hello".

(** The buffer of [hello] at [2], marked readable. *)
Definition st_buffer : state :=
  State (<[ 2%positive := Object (KBuffer hello)
                            {["readable" := VBool true]} ]>
           {[ 1%positive := empty_object ]}) Sample.table [] ∅.

(** The array [[...hello]] at [2]. *)
Definition st_bytes : state :=
  State (<[ 2%positive := Object (KArray (array_of_bytes hello)) ∅ ]>
           {[ 1%positive := empty_object ]}) Sample.table [] ∅.

(** The JSON form of the buffer at [2], its data at [3]. *)
Definition st_json : state :=
  State (<[ 3%positive := Object (KArray (array_of_bytes hello)) ∅ ]>
           (<[ 2%positive := Object KPlain
                               (<["type" := VStr "Buffer"]>
                                  {["data" := VObj 3%positive]}) ]>
              {[ 1%positive := empty_object ]})) Sample.table [] ∅.

(** An [ArrayBuffer] holding [hello] at [2]. *)
Definition st_region : state :=
  State (<[ 2%positive := Object (KArrayBuffer hello) ∅ ]>
           {[ 1%positive := empty_object ]}) Sample.table [] ∅.

(** The array [[NaN]] at [2]. *)
Definition st_nan : state :=
  State (<[ 2%positive := Object (KArray [VNum NaN]) ∅ ]>
           {[ 1%positive := empty_object ]}) Sample.table [] ∅.

(** The frozen record [Object.freeze({})] at [1]. *)
Definition st_frozen : state :=
  State {[ 1%positive := empty_object ]} Sample.table [] {[ 1%positive ]}.

(** A factory that returns itself. *)
Definition loop : fn := UserFn 5.

Definition invoke (f : fn) (args : list value) (st : state)
    : state * result value :=
  match f with
  | UserFn 2 => (st, Throw (SystemError "EACCES"))
  | UserFn 5 => (st, Ok (VFun loop))
  | _ => Sample.invoke f args st
  end.

Definition faulty : Platform := {|
  isBrowser := false;
  kMaxLength := 2 ^ 53 - 1;
  has_memory := λ size, size <=? 2 ^ 32;
  url_parse := Sample.parse;
  fs_accessSync := Sample.accessSync;
  fs_statSync_isFile := Sample.isFile;
  Buffer_from_string := Sample.encode;
  Buffer_from_arrayBuffer := Sample.view;
  Buffer_from_exotic := λ _ _, Throw TypeError;
  apply := invoke
|}.

End Cases.

(** * Properties *)

(** ** The store *)

Lemma fresh_unused (h : gmap loc object) (fr : gset loc) :
  h !! fresh (dom h ∪ fr) = None.
Proof.
  apply not_elem_of_dom. pose proof (is_fresh (dom h ∪ fr)). set_solver.
Qed.

Lemma fresh_not_frozen (h : gmap loc object) (fr : gset loc) :
  fresh (dom h ∪ fr) ∉ fr.
Proof. pose proof (is_fresh (dom h ∪ fr)). set_solver. Qed.

Lemma deref_insert (h : gmap loc object) (l : loc) (o : object) :
  deref (<[l := o]> h) l = o.
Proof. unfold deref. by rewrite lookup_insert_eq. Qed.

Lemma deref_insert_ne (h : gmap loc object) (l l' : loc) (o : object) :
  l ≠ l' → deref (<[l := o]> h) l' = deref h l'.
Proof. intros Hne. unfold deref. by rewrite lookup_insert_ne. Qed.

Lemma deref_fresh (h : gmap loc object) (fr : gset loc) (l : loc) :
  deref (<[fresh (dom h ∪ fr) := empty_object]> h) l = deref h l.
Proof.
  destruct (decide (fresh (dom h ∪ fr) = l)) as [<-|Hne].
  - rewrite deref_insert. unfold deref. by rewrite fresh_unused.
  - by apply deref_insert_ne.
Qed.

Lemma deref_lookup (h : gmap loc object) (l : loc) (o : object) :
  h !! l = Some o → deref h l = o.
Proof. intros H. unfold deref. by rewrite H. Qed.

(** ** Running a computation *)

Lemma bind_Ok {A B} (m : M A) (f : A → M B) (st st' : state) (a : A) :
  m st = (st', Ok a) → (m ≫= f) st = f a st'.
Proof. intros H. unfold mbind, M_bind. by rewrite H. Qed.

Lemma bind_lift {A B} (r : result A) (f : A → M B) (st : state) :
  (lift r ≫= f) st =
    match r with
    | Ok a => f a st
    | Throw e => (st, Throw e)
    | Diverge => (st, Diverge)
    end.
Proof. by destruct r. Qed.

(** ** Options *)

Lemma same_but_encoding_trans h1 h2 h3 :
  same_but_encoding h1 h2 → same_but_encoding h2 h3 →
  same_but_encoding h1 h3.
Proof.
  intros H12 H23 l. destruct (H12 l) as [Hk Hp], (H23 l) as [Hk' Hp'].
  split; [congruence|]. intros k Hne. rewrite Hp', Hp; done.
Qed.

Lemma same_but_encoding_alloc h (fr : gset loc) (o : object) :
  okind o = KPlain → (∀ k, k ≠ "encoding" → prop o k = VUndefined) →
  same_but_encoding h (<[fresh (dom h ∪ fr) := o]> h).
Proof.
  intros Hk Hp l. destruct (decide (fresh (dom h ∪ fr) = l)) as [<-|Hne].
  - rewrite deref_insert. unfold deref at 1 2. rewrite fresh_unused. simpl.
    split; [done|]. intros k Hne. by rewrite Hp.
  - by rewrite deref_insert_ne.
Qed.

Lemma prop_put o k v : prop (put o k v) k = v.
Proof. unfold prop, put. simpl. by rewrite lookup_insert_eq. Qed.

Lemma prop_put_ne o k k' v : k ≠ k' → prop (put o k v) k' = prop o k'.
Proof. intros Hne. unfold prop, put. simpl. by rewrite lookup_insert_ne. Qed.

Lemma same_but_encoding_set h l v :
  same_but_encoding h (<[l := put (deref h l) "encoding" v]> h).
Proof.
  intros l'. destruct (decide (l = l')) as [<-|Hne].
  - rewrite deref_insert. split; [done|]. intros k Hne.
    by rewrite prop_put_ne.
  - by rewrite deref_insert_ne.
Qed.

Lemma options_record_run (optsOrEncoding : value) (st : state) :
  ∃ h1 opts,
    options_record optsOrEncoding st
      = (State h1 (providers st) (io st) (frozen st), Ok opts) ∧
    heap st ⊆ h1 ∧
    same_but_encoding (heap st) h1 ∧
    match optsOrEncoding with
    | VStr e =>
        heap st !! opts = None ∧ (opts ∉ frozen st) ∧
        h1 !! opts = Some (Object KPlain {["encoding" := VStr e]})
    | VObj l =>
        opts = l ∧ deref h1 l = deref (heap st) l ∧
        (l ∈ frozen st → h1 !! l = heap st !! l)
    | _ =>
        heap st !! opts = None ∧ (opts ∉ frozen st) ∧
        h1 !! opts = Some empty_object
    end.
Proof.
  set (l0 := fresh (dom (heap st) ∪ frozen st)).
  set (h0 := <[l0 := empty_object]> (heap st)).
  assert (Hl0 : heap st !! l0 = None) by apply fresh_unused.
  assert (Hf0 : l0 ∉ frozen st) by apply fresh_not_frozen.
  assert (Hsub0 : heap st ⊆ h0) by by apply insert_subseteq.
  assert (Hsame0 : same_but_encoding (heap st) h0)
    by by apply same_but_encoding_alloc.
  assert (Hother : ∀ o, match o with VStr _ => False | _ => True end →
    options_record o st = (State h0 (providers st) (io st) (frozen st),
                           Ok match o with VObj l => l | _ => l0 end)).
  { intros o Ho. by destruct o. }
  destruct optsOrEncoding as [| |b|n|e|i|l|f];
    try (exists h0; eexists; split; [by apply Hother|];
         split; [done|]; split; [done|]; split; [done|]; split; [done|];
         by apply lookup_insert_eq).
  - set (o := Object KPlain {["encoding" := VStr e]}).
    exists (<[fresh (dom h0 ∪ frozen st) := o]> h0),
      (fresh (dom h0 ∪ frozen st)).
    assert (Hl1 : h0 !! fresh (dom h0 ∪ frozen st) = None)
      by apply fresh_unused.
    split; [done|]. split; [|split; [|split; [|split]]].
    + etrans; [done|]. by apply insert_subseteq.
    + eapply same_but_encoding_trans; [done|].
      apply same_but_encoding_alloc; [done|].
      intros k Hne. unfold prop, o. simpl. by rewrite lookup_singleton_ne.
    + by apply lookup_insert_None in Hl1 as [? _].
    + apply fresh_not_frozen.
    + by apply lookup_insert_eq.
  - exists h0, l. split; [by apply Hother|].
    split; [done|]. split; [done|]. split; [done|]. split.
    + apply deref_fresh.
    + intros Hl. apply lookup_insert_ne. by intros ->.
Qed.

Lemma default_encoding_run (opts : loc) (st : state) :
  default_encoding opts st =
    (if needs_default (prop (deref (heap st) opts) "encoding")
        && bool_decide (opts ∉ frozen st)
     then State (<[opts := put (deref (heap st) opts) "encoding"
                             (VStr DEFAULT_ENCODING)]> (heap st))
                (providers st) (io st) (frozen st)
     else st, Ok tt).
Proof.
  unfold default_encoding, get, set, mbind, M_bind.
  destruct (needs_default _); [|done]. simpl.
  case_decide as Hf.
  - by rewrite bool_decide_eq_false_2 by (by intros ?).
  - by rewrite bool_decide_eq_true_2.
Qed.

Lemma needs_default_active (v : value) :
  (if needs_default v then VStr DEFAULT_ENCODING else v)
  = VStr match v with
         | VStr e => if String.eqb e "" then DEFAULT_ENCODING else e
         | _ => DEFAULT_ENCODING
         end.
Proof.
  unfold needs_default.
  destruct v as [| |b|n|e|i|l|f]; simpl; rewrite ?orb_true_r; try done.
  by destruct (String.eqb e "").
Qed.

Lemma active_encoding_nonempty h o : active_encoding h o ≠ "".
Proof.
  unfold active_encoding.
  destruct (match o with VStr e => VStr e | _ => field h o "encoding" end);
    try done.
  destruct (String.eqb s "") eqn:He; [done|]. intros ->. done.
Qed.

Lemma needs_default_string (e : string) :
  e ≠ "" → needs_default (VStr e) = false.
Proof.
  intros He. unfold needs_default. simpl.
  by apply String.eqb_neq in He as ->.
Qed.

Lemma prop_with_default (o : object) :
  prop (with_default o) "encoding"
  = VStr match prop o "encoding" with
         | VStr e => if String.eqb e "" then DEFAULT_ENCODING else e
         | _ => DEFAULT_ENCODING
         end.
Proof.
  rewrite <- needs_default_active. unfold with_default.
  destruct (needs_default _); [apply prop_put|done].
Qed.

Lemma prop_with_default_ne (o : object) (k : string) :
  k ≠ "encoding" → prop (with_default o) k = prop o k.
Proof.
  intros Hk. unfold with_default.
  destruct (needs_default _); [|done]. by apply prop_put_ne.
Qed.

(** The store after normalization, read off the one after
    [options_record]. *)
Lemma normalize_store (optsOrEncoding : value) (st : state) :
  ∃ h1 opts,
    options_record optsOrEncoding st
      = (State h1 (providers st) (io st) (frozen st), Ok opts) ∧
    normalize optsOrEncoding st
      = (State (if bool_decide (opts ∈ frozen st) then h1
                else <[opts := with_default (deref h1 opts)]> h1)
           (providers st) (io st) (frozen st), Ok opts) ∧
    (bool_decide (opts ∈ frozen st) = false →
     needs_default (prop (deref h1 opts) "encoding") = false →
     is_Some (h1 !! opts)).
Proof.
  destruct (options_record_run optsOrEncoding st)
    as (h1 & opts & Hrec & Hsub & Hsame & Hopts).
  exists h1, opts. split; [done|].
  unfold normalize. setoid_rewrite (bind_Ok _ _ _ _ _ Hrec).
  unfold mbind at 1, M_bind at 1. rewrite default_encoding_run. simpl.
  assert (Hstored : needs_default (prop (deref h1 opts) "encoding") = false →
                    is_Some (h1 !! opts)).
  { destruct optsOrEncoding as [| |b|n|e|i|l|f];
      try (destruct Hopts as (_ & _ & ->); by eexists).
    destruct Hopts as (-> & Hd & _). rewrite Hd. unfold deref.
    destruct (heap st !! l) as [o|] eqn:Hl; [|done].
    intros _. rewrite (lookup_weaken _ _ _ _ Hl Hsub). by eexists. }
  split; [|by intros _].
  destruct (decide (opts ∈ frozen st)) as [Hf|Hf].
  - rewrite (bool_decide_eq_true_2 _ Hf).
    rewrite (bool_decide_eq_false_2 (opts ∉ frozen st)) by (by intros ?).
    by rewrite andb_false_r.
  - rewrite (bool_decide_eq_false_2 _ Hf).
    rewrite (bool_decide_eq_true_2 (opts ∉ frozen st)) by done.
    rewrite andb_true_r. unfold with_default.
    destruct (needs_default _) eqn:Hdef; [done|].
    destruct (Hstored eq_refl) as [o Ho].
    rewrite (deref_lookup _ _ _ Ho), insert_id; done.
Qed.

Lemma normalize_run (optsOrEncoding : value) (st : state) :
  ∃ h2 opts,
    normalize optsOrEncoding st
      = (State h2 (providers st) (io st) (frozen st), Ok opts) ∧
    normalized optsOrEncoding st h2 opts.
Proof.
  destruct (options_record_run optsOrEncoding st)
    as (h1 & opts & Hrec & Hsub & Hsame & Hopts).
  destruct (normalize_store optsOrEncoding st)
    as (h1' & opts' & Hrec' & Hrun & _).
  rewrite Hrec in Hrec'. injection Hrec' as <- <-.
  eexists _, opts. split; [exact Hrun|].
  assert (Hobj : match optsOrEncoding with VObj l => opts = l | _ => True end)
    by (destruct optsOrEncoding; try done; by destruct Hopts).
  assert (Hfrozen : bool_decide (opts ∈ frozen st)
                    = frozen_record st optsOrEncoding).
  { destruct optsOrEncoding as [| |b|n|e|i|l|f];
      try (destruct Hopts as (_ & Hf & _); by apply bool_decide_eq_false_2).
    by destruct Hopts as (-> & _). }
  assert (Hfield : ∀ k, prop (deref h1 opts) k =
    match optsOrEncoding with
    | VStr e => if decide (k = "encoding") then VStr e else VUndefined
    | _ => field (heap st) optsOrEncoding k
    end).
  { intros k. destruct optsOrEncoding as [| |b|n|e|i|l|f];
      try (destruct Hopts as (_ & _ & Hd); by rewrite (deref_lookup _ _ _ Hd)).
    - destruct Hopts as (_ & _ & Hd). rewrite (deref_lookup _ _ _ Hd).
      unfold prop. simpl. destruct (decide (k = "encoding")) as [->|Hk].
      + by rewrite lookup_singleton_eq.
      + by rewrite lookup_singleton_ne.
    - destruct Hopts as (-> & Hd & _). by rewrite Hd. }
  rewrite Hfrozen. split.
  - destruct (frozen_record st optsOrEncoding); [done|].
    eapply same_but_encoding_trans; [done|]. intros l'.
    destruct (decide (opts = l')) as [<-|Hne].
    + rewrite deref_insert. unfold with_default.
      destruct (needs_default _); [|done].
      split; [done|]. intros k Hk. by rewrite prop_put_ne.
    + by rewrite deref_insert_ne.
  - unfold effective_encoding.
    destruct (frozen_record st optsOrEncoding) eqn:Hfr.
    + rewrite Hfield. by destruct optsOrEncoding.
    + rewrite deref_insert, prop_with_default. f_equal.
      unfold active_encoding. rewrite Hfield.
      destruct optsOrEncoding; try done.
  - intros ->. by rewrite lookup_insert_eq.
  - done.
  - intros k Hk. transitivity (prop (deref h1 opts) k).
    + destruct (frozen_record st optsOrEncoding); [done|].
      by rewrite deref_insert, prop_with_default_ne.
    + rewrite Hfield. destruct optsOrEncoding; try done.
      by rewrite decide_False.
  - intros l o Hl. pose proof (lookup_weaken _ _ _ _ Hl Hsub) as Hl1.
    unfold after_default.
    destruct optsOrEncoding as [| |b|n|e|i|l'|f];
      try (destruct Hopts as (Hnone & _); simpl;
           rewrite lookup_insert_ne; [done|congruence]).
    destruct Hopts as (-> & _). simpl in Hfrozen |- *.
    destruct (decide (l' = l)) as [->|Hll].
    + destruct (decide (l ∈ frozen st)) as [Hf|Hf].
      * by rewrite bool_decide_eq_true_2.
      * rewrite bool_decide_eq_false_2 by done.
        by rewrite lookup_insert_eq, (deref_lookup _ _ _ Hl1).
    + destruct (bool_decide (l' ∈ frozen st)); [done|].
      by rewrite lookup_insert_ne.
  - done.
Qed.

(** C7 (amended). Whatever the second argument is, normalization succeeds,
    and touches neither the provider table nor the log.  A string argument
    gives a new record with that string as its only field, an object is used
    as it is, anything else gives a new empty record; then, unless the
    record is frozen, an [encoding] that is missing, empty or not a string
    becomes ["utf8"], and nothing else changes in the record.  So the
    [encoding] of a record that is not frozen ends as a non-empty string:
    the one the caller gave, or else ["utf8"].  A frozen record stays as it
    is. *)
Theorem normalize_encoding (optsOrEncoding : value) (st : state) :
  ∃ st2 opts,
    normalize optsOrEncoding st = (st2, Ok opts) ∧
    providers st2 = providers st ∧ io st2 = io st ∧
    frozen st2 = frozen st ∧
    match optsOrEncoding with
    | VStr e =>
        heap st !! opts = None ∧
        heap st2 !! opts
        = Some (Object KPlain
                  {["encoding" :=
                      VStr (if String.eqb e "" then DEFAULT_ENCODING else e)]})
    | VObj l =>
        opts = l ∧
        (l ∈ frozen st → heap st2 !! l = heap st !! l) ∧
        (l ∉ frozen st →
         heap st2 !! l = Some (with_default (deref (heap st) l)))
    | _ =>
        heap st !! opts = None ∧
        heap st2 !! opts
        = Some (Object KPlain {["encoding" := VStr DEFAULT_ENCODING]})
    end ∧
    (opts ∉ frozen st →
     ∃ encoding,
       prop (deref (heap st2) opts) "encoding" = VStr encoding ∧
       encoding ≠ "" ∧
       encoding = active_encoding (heap st) optsOrEncoding).
Proof.
  destruct (options_record_run optsOrEncoding st)
    as (h1 & opts & Hrec & Hsub & Hsame & Hopts).
  destruct (normalize_store optsOrEncoding st)
    as (h1' & opts' & Hrec' & Hrun & _).
  rewrite Hrec in Hrec'. injection Hrec' as <- <-.
  destruct (normalize_run optsOrEncoding st)
    as (h2 & opts' & Hrun' & Hnorm).
  eexists _, opts. split; [exact Hrun|]. do 3 (split; [done|]).
  simpl. split.
  - destruct optsOrEncoding as [| |b|n|e|i|l|f];
      try (destruct Hopts as (Hnone & Hf & Hd); split; [done|];
           rewrite bool_decide_eq_false_2 by done;
           by rewrite lookup_insert_eq, (deref_lookup _ _ _ Hd)).
    + destruct Hopts as (Hnone & Hf & Hd). split; [done|].
      rewrite bool_decide_eq_false_2 by done.
      rewrite lookup_insert_eq, (deref_lookup _ _ _ Hd). f_equal.
      unfold with_default, needs_default, prop, put. simpl.
      rewrite lookup_singleton_eq. simpl. rewrite orb_false_r.
      destruct (String.eqb e ""); simpl; [|done].
      by rewrite insert_singleton_eq.
    + destruct Hopts as (-> & Hd & Hfz). split; [done|]. split.
      * intros Hf. rewrite bool_decide_eq_true_2 by done. by apply Hfz.
      * intros Hf. rewrite bool_decide_eq_false_2 by done.
        by rewrite lookup_insert_eq, Hd.
  - intros Hf. rewrite Hrun in Hrun'. injection Hrun' as <- <-.
    exists (active_encoding (heap st) optsOrEncoding).
    split; [|split; [apply active_encoding_nonempty|done]].
    rewrite (norm_encoding _ _ _ _ Hnorm). unfold effective_encoding.
    by rewrite <- (norm_frozen _ _ _ _ Hnorm), bool_decide_eq_false_2.
Qed.

(** ** The dispatcher *)

Section Properties.

Variable P : Platform.

#[local] Arguments isBufferLike : simpl never.
#[local] Arguments deref : simpl never.
#[local] Arguments prop : simpl never.
#[local] Arguments from_object : simpl never.
#[local] Arguments from_bufferLike : simpl never.
#[local] Arguments from_number : simpl never.
#[local] Arguments from_rest : simpl never.
#[local] Arguments from_string : simpl never.
#[local] Arguments from_string_tail : simpl never.
#[local] Arguments from_protocol : simpl never.
#[local] Arguments providers_get : simpl never.
#[local] Arguments call : simpl never.
#[local] Arguments alloc : simpl never.

Lemma from_run (fuel : nat) (input optsOrEncoding : value) (st : state) :
  ∃ h2 opts,
    normalize optsOrEncoding st = (State h2 (providers st) (io st) (frozen st), Ok opts) ∧
    normalized optsOrEncoding st h2 opts ∧
    from P (S fuel) input optsOrEncoding st
      = from_body P (from P fuel) input opts
          (State h2 (providers st) (io st) (frozen st)).
Proof.
  destruct (normalize_run optsOrEncoding st) as (h2 & opts & Hrun & Hnorm).
  exists h2, opts. do 2 (split; [done|]). simpl.
  by setoid_rewrite (bind_Ok _ _ _ _ _ Hrun).
Qed.

Lemma from_body_not_string self (input : value) (opts : loc) (st : state) :
  is_string input = false →
  from_body P self input opts st = from_rest P self input opts st.
Proof. by destruct input. Qed.

Lemma isArray_same h h' (v : value) :
  same_but_encoding h h' → isArray h' v = isArray h v.
Proof.
  intros Hsame. destruct v as [| |b|n|e|i|l|f]; try done.
  simpl. by destruct (Hsame l) as [-> _].
Qed.

Lemma elements_same h h' (v : value) :
  same_but_encoding h h' → elements h' v = elements h v.
Proof.
  intros Hsame. destruct v as [| |b|n|e|i|l|f]; try done.
  simpl. by destruct (Hsame l) as [-> _].
Qed.

Lemma isBufferLike_same h h' (input : value) :
  same_but_encoding h h' → isBufferLike h' input = isBufferLike h input.
Proof.
  intros Hsame. destruct input as [| |b|n|e|i|l|f]; try done.
  unfold isBufferLike.
  rewrite (isArray_same _ _ (VObj l) Hsame).
  rewrite (elements_same _ _ (VObj l) Hsame).
  destruct (Hsame l) as [-> Hprop].
  rewrite !Hprop by done.
  by rewrite (isArray_same _ _ (prop (deref h l) "data") Hsame).
Qed.

(** C5. An object that is not buffer-like is returned as it is, the very
    same reference, when one of [readable], [writable], [statable],
    [deletable] is truthy; otherwise it is handed to the
    [random-access-storage] constructor and the result of that call is
    returned. *)
Theorem from_object_passthrough (fuel : nat) (l : loc)
    (optsOrEncoding : value) (st : state) :
  isBufferLike (heap st) (VObj l) = false →
  ∃ st2 opts,
    normalize optsOrEncoding st = (st2, Ok opts) ∧
    from P (S fuel) (VObj l) optsOrEncoding st =
      if truthy (prop (deref (heap st) l) "readable")
         || truthy (prop (deref (heap st) l) "writable")
         || truthy (prop (deref (heap st) l) "statable")
         || truthy (prop (deref (heap st) l) "deletable")
      then (st2, Ok (VObj l))
      else apply P Ras [VObj l] st2.
Proof.
  intros Hnot.
  destruct (from_run fuel (VObj l) optsOrEncoding st)
    as (h2 & opts & Hrun & Hnorm & ->).
  exists (State h2 (providers st) (io st) (frozen st)), opts. split; [done|].
  rewrite from_body_not_string by done.
  unfold from_rest. simpl. unfold mbind, M_bind, get_heap. simpl.
  rewrite (isBufferLike_same _ _ _ (norm_same _ _ _ _ Hnorm)).
  rewrite Hnot. unfold from_object, get, mbind, M_bind. simpl.
  destruct (norm_same _ _ _ _ Hnorm l) as [_ Hprop].
  rewrite !Hprop by done.
  by destruct (_ || _).
Qed.

(** C10. The empty array is buffer-like, and dispatching it calls the
    memory provider with a new buffer of no bytes. *)
Theorem from_empty_array (fuel : nat) (l : loc) (props : gmap string value)
    (optsOrEncoding : value) (st : state) :
  heap st !! l = Some (Object (KArray []) props) →
  isBufferLike (heap st) (VObj l) = true ∧
  ∃ st2 opts,
    normalize optsOrEncoding st = (st2, Ok opts) ∧
    from P (S fuel) (VObj l) optsOrEncoding st =
      (buffer ← alloc (Object (KBuffer []) ∅);
       memory ← providers_get "memory";
       call P memory [VObj buffer]) st2.
Proof.
  intros Hl.
  assert (Hlike : isBufferLike (heap st) (VObj l) = true).
  { unfold isBufferLike, isArray, elements.
    rewrite (deref_lookup _ _ _ Hl). simpl. apply orb_true_r. }
  split; [done|].
  destruct (from_run fuel (VObj l) optsOrEncoding st)
    as (h2 & opts & Hrun & Hnorm & ->).
  exists (State h2 (providers st) (io st) (frozen st)), opts. split; [done|].
  rewrite from_body_not_string by done.
  unfold from_rest. simpl. unfold mbind at 1, M_bind at 1, get_heap. simpl.
  rewrite (isBufferLike_same _ _ _ (norm_same _ _ _ _ Hnorm)), Hlike.
  unfold from_bufferLike. unfold mbind at 1, M_bind at 1, get_heap. simpl.
  destruct (norm_same _ _ _ _ Hnorm l) as [Hkind _].
  rewrite (deref_lookup _ _ _ Hl) in Hkind. simpl in Hkind.
  unfold ArrayBuffer_region, Buffer_from_object. rewrite Hkind. done.
Qed.

(** C3 (amended). A finite number between zero and the largest buffer
    length, for which the memory can be had, makes [from] call the memory
    provider with a new zero-filled buffer of that length, rounded down; for
    an integer in that range the buffer has exactly that many bytes, all
    zero.  A negative number or [NaN] goes to the default provider, with the
    options.  Any other number, infinite, above the largest buffer length or
    too large for the memory, ends in the range error of [Buffer.alloc]: no
    provider is called. *)
Theorem from_number_dispatch (fuel : nat) (n : number)
    (optsOrEncoding : value) (st : state) :
  ∃ st2 opts,
    normalize optsOrEncoding st = (st2, Ok opts) ∧
    (∀ q, n = Finite q → (0 <= q)%Q → (q <= inject_Z (kMaxLength P))%Q →
       has_memory P (Qfloor q) = true →
       from P (S fuel) (VNum n) optsOrEncoding st =
         (buffer ← alloc (Object (KBuffer
                      (replicate (Z.to_nat (Qfloor q)) zero_byte)) ∅);
          memory ← providers_get "memory";
          call P memory [VObj buffer]) st2) ∧
    (∀ z, n = Finite (inject_Z z) → 0 ≤ z ≤ kMaxLength P →
       has_memory P z = true →
       ∃ bytes,
         length bytes = Z.to_nat z ∧ Forall (eq zero_byte) bytes ∧
         from P (S fuel) (VNum n) optsOrEncoding st =
           (buffer ← alloc (Object (KBuffer bytes) ∅);
            memory ← providers_get "memory";
            call P memory [VObj buffer]) st2) ∧
    (ge_zero n = false →
       from P (S fuel) (VNum n) optsOrEncoding st =
         (default ← providers_get "default";
          call P default [VNum n; VObj opts]) st2) ∧
    (n = Infinity false ∨
     (∃ q, n = Finite q ∧ (0 <= q)%Q ∧
           (¬ (q <= inject_Z (kMaxLength P))%Q
            ∨ has_memory P (Qfloor q) = false)) →
       from P (S fuel) (VNum n) optsOrEncoding st = (st2, Throw RangeError)).
Proof.
  destruct (from_run fuel (VNum n) optsOrEncoding st)
    as (h2 & opts & Hrun & Hnorm & ->).
  exists (State h2 (providers st) (io st) (frozen st)), opts.
  split; [done|].
  rewrite from_body_not_string by done.
  assert (Hfin : ∀ q, n = Finite q → (0 <= q)%Q →
    (q <= inject_Z (kMaxLength P))%Q → has_memory P (Qfloor q) = true →
    from_rest P (from P fuel) (VNum n) opts
      (State h2 (providers st) (io st) (frozen st))
    = (buffer ← alloc (Object (KBuffer
                 (replicate (Z.to_nat (Qfloor q)) zero_byte)) ∅);
       memory ← providers_get "memory";
       call P memory [VObj buffer])
        (State h2 (providers st) (io st) (frozen st))).
  { intros q -> H0 Hmax Hmem. unfold from_rest. simpl.
    apply Qle_bool_iff in H0 as H0'. rewrite H0'.
    unfold from_number. rewrite bind_lift. simpl.
    apply Qle_bool_iff in Hmax. by rewrite H0', Hmax, Hmem. }
  split; [done|]. split; [|split].
  - intros z -> Hz Hmem. eexists.
    split; [|split; [|apply Hfin; try done]].
    + rewrite length_replicate. f_equal. apply Qfloor_Z.
    + apply Forall_replicate. done.
    + unfold Qle. simpl. lia.
    + rewrite <- Zle_Qle. lia.
    + by rewrite Qfloor_Z.
  - intros Hneg. unfold from_rest.
    replace (isNumber (VNum n) && ge_zero (number_of (VNum n))) with false
      by (simpl; rewrite Hneg; by destruct n).
    done.
  - intros [->|(q & -> & H0 & Hcase)]; [done|].
    unfold from_rest. simpl.
    apply Qle_bool_iff in H0. rewrite H0.
    unfold from_number. rewrite bind_lift. simpl. rewrite H0. simpl.
    destruct (Qle_bool q (inject_Z (kMaxLength P))) eqn:Hmax; [|done].
    apply Qle_bool_iff in Hmax.
    destruct Hcase as [Hcase| ->]; [by destruct Hcase|done].
Qed.

(** *** String input *)

Lemma returns_run (m : M value) (k : M value) (st : state) :
  (r ← returns m; match r : option value with
                  | Some v => mret v
                  | None => k
                  end) st = m st.
Proof.
  unfold returns, fmap, M_fmap, mbind, M_bind, mret, M_ret.
  by destruct (m st) as [st' [v|e|]].
Qed.

Lemma bind_assoc {A B C} (m : M A) (f : A → M B) (g : B → M C) st :
  ((m ≫= f) ≫= g) st = (m ≫= λ a, f a ≫= g) st.
Proof.
  unfold mbind, M_bind. by destruct (m st) as [st' [a|e|]].
Qed.

Lemma bind_ext_l {A B} (m m' : M A) (f : A → M B) st :
  m st = m' st → (m ≫= f) st = (m' ≫= f) st.
Proof. intros H. unfold mbind, M_bind. by rewrite H. Qed.

Lemma bind_ext_r {A B} (m : M A) (f g : A → M B) st :
  (∀ a st', f a st' = g a st') → (m ≫= f) st = (m ≫= g) st.
Proof.
  intros H. unfold mbind, M_bind. by destruct (m st) as [st' [a|e|]].
Qed.

Lemma bind_providers_get {B} (name : string) (f : value → M B) st :
  (providers_get name ≫= f) st = f (provider (providers st) name) st.
Proof. done. Qed.

Lemma from_rest_string self (s : string) (opts : loc) (st : state) :
  from_rest P self (VStr s) opts st =
    (default ← providers_get "default";
     call P default [VStr s; VObj opts]) st.
Proof. done. Qed.

(** The string block once the URL is parsed. *)
Lemma from_string_run (s : string) (opts : loc) (st : state)
    (protocol pathname : option string) :
  url_parse P s = Ok (protocol, pathname) →
  from_string P s opts st =
    if negb (String.length s =? 0)%nat
       && is_true (prop (deref (heap st) opts) "file")
    then (file ← providers_get "file";
          returns $ call P file [VStr s; VObj opts]) st
    else (r ← from_protocol P s opts protocol pathname;
          match r : option value with
          | Some v => mret (Some v)
          | None => from_string_tail P s opts
          end) st.
Proof.
  intros Hparse. unfold from_string. rewrite bind_lift, Hparse.
  unfold mbind at 1, M_bind at 1, get. simpl.
  by destruct (_ && _).
Qed.

Lemma length_nonempty (s : string) : s ≠ "" → (String.length s =? 0)%nat = false.
Proof. by destruct s. Qed.

(** C4 (amended). A non-empty string that [url.parse] accepts, dispatched
    with an options record whose [file] is [true], goes to the file provider
    with the string itself and the options, whatever the URL parsed to. *)
Theorem from_file_option (fuel : nat) (s : string) (l : loc) (st : state)
    (parsed : option string * option string) :
  s ≠ "" →
  url_parse P s = Ok parsed →
  prop (deref (heap st) l) "file" = VBool true →
  ∃ st2,
    normalize (VObj l) st = (st2, Ok l) ∧
    from P (S fuel) (VStr s) (VObj l) st =
      (file ← providers_get "file";
       call P file [VStr s; VObj l]) st2.
Proof.
  intros Hs Hparse Hfile. destruct parsed as [protocol pathname].
  destruct (from_run fuel (VStr s) (VObj l) st)
    as (h2 & opts & Hrun & Hnorm & ->).
  pose proof (norm_object _ _ _ _ Hnorm) as Hl. simpl in Hl. subst opts.
  exists (State h2 (providers st) (io st) (frozen st)). split; [done|].
  set (st2 := State h2 (providers st) (io st) (frozen st)).
  assert (Hstr : from_string P s l st2 =
    (file ← providers_get "file";
     returns $ call P file [VStr s; VObj l]) st2).
  { rewrite (from_string_run _ _ _ _ _ Hparse). simpl.
    rewrite (norm_field _ _ _ _ Hnorm) by done. simpl.
    by rewrite Hfile, length_nonempty. }
  unfold from_body. rewrite (bind_ext_l _ _ _ _ Hstr).
  rewrite bind_assoc, !bind_providers_get. apply returns_run.
Qed.

Lemma provider_own (table : gmap string value) (name : string) (v : value) :
  table !! name = Some v → provider table name = v.
Proof. intros H. unfold provider. by rewrite H. Qed.

Lemma from_protocol_custom (s : string) (opts : loc) (p : string)
    (pathname : option string) (st : state) :
  p ≠ "" → re_https_test p = false → re_file_test p = false →
  from_protocol P s opts (Some p) pathname st =
    if (bool_decide (is_Some (providers st !! slice_0_m1 p))
        || inherited (slice_0_m1 p))
       && is_function (provider (providers st) (slice_0_m1 p))
    then returns (call P (provider (providers st) (slice_0_m1 p))
                    [VStr s; VObj opts]) st
    else (st, Ok None).
Proof.
  intros Hp Hhttp Hfile. unfold from_protocol.
  assert (truthy (VStr p) = true) as ->.
  { simpl. apply negb_true_iff, String.eqb_neq. done. }
  rewrite Hhttp, Hfile.
  unfold mbind at 1, M_bind at 1, providers_in. simpl.
  destruct (_ || _); [|done]. simpl.
  rewrite bind_providers_get. by destruct (is_function _).
Qed.

(** The body of [from] on a string that passes the [file] option and whose
    protocol rule returns nothing. *)
Lemma from_body_later self (s : string) (opts : loc) (st : state)
    (protocol pathname : option string) :
  url_parse P s = Ok (protocol, pathname) →
  s = "" ∨ is_true (prop (deref (heap st) opts) "file") = false →
  from_protocol P s opts protocol pathname st = (st, Ok None) →
  from_body P self (VStr s) opts st = later_string_rules P s opts st.
Proof.
  intros Hparse Hfile Hproto.
  assert (Hstr : from_string P s opts st = from_string_tail P s opts st).
  { rewrite (from_string_run _ _ _ _ _ Hparse).
    replace (negb _ && _) with false
      by (destruct Hfile as [->| ->]; [done|by rewrite andb_false_r]).
    by rewrite (bind_Ok _ _ _ _ _ Hproto). }
  unfold from_body, later_string_rules.
  by rewrite (bind_ext_l _ _ _ _ Hstr).
Qed.

Lemma option_file_false (h h2 : gmap loc object) (s : string)
    (optsOrEncoding : value) (st : state) (opts : loc) :
  normalized optsOrEncoding st h2 opts →
  s = "" ∨ is_true (field (heap st) optsOrEncoding "file") = false →
  s = "" ∨ is_true (prop (deref h2 opts) "file") = false.
Proof.
  intros Hnorm [->|Hf]; [by left|right].
  by rewrite (norm_field _ _ _ _ Hnorm).
Qed.

(** C1 (amended). Take a string whose parsed protocol contains none of
    [http:], [https:] and [file:], dispatched with an options argument whose
    [file] is not [true] (or take the empty string).  If the provider table
    holds a function under the protocol without its colon, [from] returns
    what that function returns on the string and the normalized options.  If
    the table holds nothing under that name, and the name is not one that
    objects inherit, the string goes on to the later string rules. *)
Theorem from_custom_protocol (fuel : nat) (s : string)
    (optsOrEncoding : value) (st : state) (p : string)
    (pathname : option string) :
  url_parse P s = Ok (Some p, pathname) →
  p ≠ "" →
  re_https_test p = false →
  re_file_test p = false →
  s = "" ∨ is_true (field (heap st) optsOrEncoding "file") = false →
  ∃ st2 opts,
    normalize optsOrEncoding st = (st2, Ok opts) ∧
    (∀ f, providers st !! slice_0_m1 p = Some (VFun f) →
       from P (S fuel) (VStr s) optsOrEncoding st
         = apply P f [VStr s; VObj opts] st2) ∧
    (providers st !! slice_0_m1 p = None →
     inherited (slice_0_m1 p) = false →
       from P (S fuel) (VStr s) optsOrEncoding st
         = later_string_rules P s opts st2).
Proof.
  intros Hparse Hp Hhttp Hfile Hopt.
  destruct (from_run fuel (VStr s) optsOrEncoding st)
    as (h2 & opts & Hrun & Hnorm & ->).
  set (st2 := State h2 (providers st) (io st) (frozen st)).
  exists st2, opts. split; [done|].
  pose proof (from_protocol_custom s opts p pathname st2 Hp Hhttp Hfile)
    as Hproto.
  pose proof (option_file_false (heap st) _ _ _ _ _ Hnorm Hopt) as Hopt2.
  split.
  - intros f Hf.
    change (providers st2) with (providers st) in Hproto.
    rewrite (provider_own _ _ _ Hf) in Hproto.
    rewrite bool_decide_eq_true_2 in Hproto by eauto. simpl in Hproto.
    assert (Hstr : from_string P s opts st2 =
      returns (call P (VFun f) [VStr s; VObj opts]) st2).
    { rewrite (from_string_run _ _ _ _ _ Hparse).
      change (heap st2) with h2.
      replace (negb _ && _) with false
        by (destruct Hopt2 as [->| ->]; [done|by rewrite andb_false_r]).
      unfold mbind, M_bind. rewrite Hproto.
      unfold returns, fmap, M_fmap, mbind, M_bind, mret, M_ret.
      by destruct (call P _ _ _) as [st' [v|e|]]. }
    unfold from_body. rewrite (bind_ext_l _ _ _ _ Hstr).
    apply returns_run.
  - intros Hnone Hinh. apply (from_body_later _ s opts st2 _ _ Hparse Hopt2).
    rewrite Hproto. change (providers st2) with (providers st).
    rewrite Hnone, Hinh.
    by rewrite bool_decide_eq_false_2 by (by intros [? ?]).
Qed.

(** C9 (amended). Any value can sit in the provider table.  A value that is
    not a function, found under the protocol of a string, is not called:
    the custom-protocol rule passes the string on to the later string
    rules. *)
Theorem from_non_function_provider (fuel : nat) (s : string)
    (optsOrEncoding : value) (st : state) (p : string)
    (pathname : option string) (v : value) :
  url_parse P s = Ok (Some p, pathname) →
  p ≠ "" →
  re_https_test p = false →
  re_file_test p = false →
  s = "" ∨ is_true (field (heap st) optsOrEncoding "file") = false →
  providers st !! slice_0_m1 p = Some v →
  is_function v = false →
  ∃ st2 opts,
    normalize optsOrEncoding st = (st2, Ok opts) ∧
    from P (S fuel) (VStr s) optsOrEncoding st
      = later_string_rules P s opts st2.
Proof.
  intros Hparse Hp Hhttp Hfile Hopt Hv Hfun.
  destruct (from_run fuel (VStr s) optsOrEncoding st)
    as (h2 & opts & Hrun & Hnorm & ->).
  set (st2 := State h2 (providers st) (io st) (frozen st)).
  exists st2, opts. split; [done|].
  pose proof (option_file_false (heap st) _ _ _ _ _ Hnorm Hopt) as Hopt2.
  apply (from_body_later _ s opts st2 _ _ Hparse Hopt2).
  rewrite (from_protocol_custom s opts p pathname st2 Hp Hhttp Hfile).
  change (providers st2) with (providers st).
  by rewrite (provider_own _ _ _ Hv), Hfun, andb_false_r.
Qed.

Lemma from_local_file_none (s : string) (st : state) :
  no_regular_file P s →
  ∃ evs, from_local_file P s st
         = (State (heap st) (providers st) (io st ++ evs) (frozen st), Ok None).
Proof.
  intros Hno. unfold from_local_file.
  destruct (isBrowser P) eqn:Hb; simpl.
  { exists []. rewrite app_nil_r. by destruct st. }
  destruct Hno as [?|[[e He]|[Hacc [[e He]|Hst]]]]; [congruence|..];
    unfold try_catch, log, lift, next_rule, mbind, M_bind, mret, M_ret;
    simpl.
  - rewrite He. simpl. exists [FsAccess s; Debug e].
    by rewrite <- !app_assoc.
  - rewrite Hacc, He. simpl. exists [FsAccess s; FsStat s; Debug e].
    by rewrite <- !app_assoc.
  - rewrite Hacc, Hst. simpl. exists [FsAccess s; FsStat s].
    by rewrite <- !app_assoc.
Qed.

(** C2 (amended). Take a non-empty string that [url.parse] accepts and
    finds no protocol in, where the probe finds no regular file and the
    [file] option is not [true].  If [Buffer.from] accepts the string under
    the encoding in effect (the one the caller gave, else ["utf8"]; a frozen
    options record keeps the [encoding] it has), [from] calls the memory
    provider with a new buffer holding the bytes of that conversion, and
    returns what the provider returns.  If [Buffer.from] throws, so does
    [from], and no provider is called. *)
Theorem from_string_memory_path (fuel : nat) (s : string)
    (optsOrEncoding : value) (st : state) (pathname : option string) :
  s ≠ "" →
  url_parse P s = Ok (None, pathname) →
  is_true (field (heap st) optsOrEncoding "file") = false →
  no_regular_file P s →
  ∃ st2 st3 opts,
    normalize optsOrEncoding st = (st2, Ok opts) ∧
    heap st3 = heap st2 ∧ providers st3 = providers st2 ∧
    frozen st3 = frozen st2 ∧
    (∀ bytes,
       Buffer_from_string P s (effective_encoding st optsOrEncoding)
       = Ok bytes →
       from P (S fuel) (VStr s) optsOrEncoding st =
         (buffer ← alloc (Object (KBuffer bytes) ∅);
          memory ← providers_get "memory";
          call P memory [VObj buffer]) st3) ∧
    (∀ e,
       Buffer_from_string P s (effective_encoding st optsOrEncoding)
       = Throw e →
       from P (S fuel) (VStr s) optsOrEncoding st = (st3, Throw e)).
Proof.
  intros Hs Hparse Hopt Hno.
  destruct (from_run fuel (VStr s) optsOrEncoding st)
    as (h2 & opts & Hrun & Hnorm & ->).
  set (st2 := State h2 (providers st) (io st) (frozen st)).
  destruct (from_local_file_none s st2 Hno) as [evs Hprobe].
  exists st2, (State h2 (providers st) (io st ++ evs) (frozen st)), opts.
  do 4 (split; [done|]).
  assert (Hopt2 : s = "" ∨ is_true (prop (deref h2 opts) "file") = false)
    by (right; by rewrite (norm_field _ _ _ _ Hnorm)).
  assert (Hbody : from_body P (from P fuel) (VStr s) opts st2 =
    (bytes ← lift (Buffer_from_string P s
                     (effective_encoding st optsOrEncoding));
     buffer ← alloc (Object (KBuffer bytes) ∅);
     memory ← providers_get "memory";
     call P memory [VObj buffer])
      (State h2 (providers st) (io st ++ evs) (frozen st))).
  { rewrite (from_body_later _ s opts st2 _ _ Hparse Hopt2) by done.
    unfold later_string_rules, from_string_tail.
    rewrite bind_assoc, (bind_Ok _ _ _ _ _ Hprobe). simpl.
    unfold from_string_memory.
    assert ((0 <? Z.of_nat (String.length s)) = true) as ->
      by (destruct s; [done|apply Z.ltb_lt; simpl; lia]).
    rewrite bind_assoc. unfold mbind at 1, M_bind at 1, get. simpl.
    rewrite (norm_encoding _ _ _ _ Hnorm), bind_assoc.
    apply bind_ext_r. intros bytes st'. rewrite bind_assoc.
    apply bind_ext_r. intros buffer st''.
    rewrite bind_assoc, !bind_providers_get. apply returns_run. }
  rewrite Hbody, bind_lift. split; [by intros bytes ->|by intros e ->].
Qed.

Lemma builtin_elem (name : string) :
  bool_decide (name ∈ builtin_names) = true → name ∈ builtin_names.
Proof. apply bool_decide_eq_true_1. Qed.

(** *** Invariants of a dispatch *)

Section Invariant.

(** An invariant [I] of the state, the events [L] that may be logged, the
    errors [E] that may reach the caller, and the options record [opts] of
    the call. *)
Variable I : state → Prop.
Variable L : io_event → Prop.
Variable E : error → Prop.
Variable opts : loc.

Hypothesis I_alloc : ∀ st o, I st → I (alloc o st).1.
Hypothesis I_log : ∀ st ev, L ev → I st → I (log ev st).1.
Hypothesis I_apply : ∀ st f args, I st →
  I (apply P f args st).1 ∧ ∀ e, (apply P f args st).2 = Throw e → E e.
Hypothesis I_callable : ∀ st name, I st → name ∈ builtin_names →
  E TypeError ∨ is_function (provider (providers st) name) = true.
Hypothesis E_parse : ∀ s e, url_parse P s = Throw e → E e.
Hypothesis E_string : ∀ s enc e, Buffer_from_string P s enc = Throw e → E e.
Hypothesis E_arrayBuffer : ∀ region byteOffset len e,
  Buffer_from_arrayBuffer P region byteOffset len = Throw e → E e.
Hypothesis E_exotic : ∀ h o e, Buffer_from_exotic P h o = Throw e → E e.
Hypothesis E_range : E RangeError.
Hypothesis E_stack : E StackOverflow.
Hypothesis I_normalize : ∀ st, I st →
  ∃ st', normalize (VObj opts) st = (st', Ok opts) ∧ I st'.

Lemma keeps_ret {A} E' (a : A) : keeps I E' (mret a).
Proof. by intros st HI. Qed.

Lemma keeps_bind {A B} E' (m : M A) (f : A → M B) :
  keeps I E' m → (∀ a, keeps I E' (f a)) → keeps I E' (m ≫= f).
Proof.
  intros Hm Hf st HI. destruct (Hm st HI) as [HI' He].
  unfold mbind, M_bind.
  destruct (m st) as [st' [a|e|]]; simpl in HI', He |- *.
  - by apply Hf.
  - split; [done|]. intros e' [= <-]. by apply He.
  - by split.
Qed.

Lemma keeps_mono {A} (E1 E2 : error → Prop) (m : M A) :
  (∀ e, E1 e → E2 e) → keeps I E1 m → keeps I E2 m.
Proof.
  intros Hsub Hm st HI. destruct (Hm st HI) as [HI' He]. eauto.
Qed.

Lemma keeps_lift {A} (E' : error → Prop) (r : result A) :
  (∀ e, r = Throw e → E' e) → keeps I E' (lift r).
Proof. by intros He st HI. Qed.

Lemma keeps_get E' (l : loc) (k : string) : keeps I E' (get l k).
Proof. by intros st HI. Qed.

Lemma keeps_get_heap E' : keeps I E' get_heap.
Proof. by intros st HI. Qed.

Lemma keeps_providers_in E' (name : string) : keeps I E' (providers_in name).
Proof. by intros st HI. Qed.

Lemma keeps_alloc E' (o : object) : keeps I E' (alloc o).
Proof. intros st HI. split; [by apply I_alloc|done]. Qed.

Lemma keeps_log E' (ev : io_event) : L ev → keeps I E' (log ev).
Proof. intros Hev st HI. split; [by apply I_log|done]. Qed.

Lemma keeps_returns E' (m : M value) : keeps I E' m → keeps I E' (returns m).
Proof.
  intros Hm. apply keeps_bind; [done|]. intros v. apply keeps_ret.
Qed.

Lemma keeps_try_catch {A} (E1 E2 : error → Prop) (m : M A)
    (h : error → M A) :
  keeps I E1 m → (∀ e, keeps I E2 (h e)) → keeps I E2 (try_catch m h).
Proof.
  intros Hm Hh st HI. destruct (Hm st HI) as [HI' He].
  unfold try_catch.
  destruct (m st) as [st' [a|e|]]; simpl in HI', He |- *; try done.
  by apply Hh.
Qed.

Lemma keeps_call (f : fn) (args : list value) :
  keeps I E (call P (VFun f) args).
Proof. intros st HI. by apply I_apply. Qed.

Lemma keeps_call_value (v : value) (args : list value) :
  E TypeError ∨ is_function v = true → keeps I E (call P v args).
Proof.
  intros Hv. destruct v; try apply keeps_call;
    (destruct Hv as [?|?]; [|done]); intros st HI; split; try done;
    by intros e [= <-].
Qed.

Lemma keeps_builtin (name : string) (args : list value) :
  name ∈ builtin_names →
  keeps I E (f ← providers_get name; call P f args).
Proof.
  intros Hname st HI. rewrite bind_providers_get.
  apply keeps_call_value; [|done]. by apply I_callable.
Qed.

Lemma keeps_from_protocol (s : string) (protocol pathname : option string) :
  keeps I E (from_protocol P s opts protocol pathname).
Proof.
  unfold from_protocol. destruct protocol as [p|]; [|apply keeps_ret].
  destruct (truthy (VStr p)); [|apply keeps_ret].
  destruct (re_https_test p).
  { intros st HI. rewrite bind_providers_get. apply keeps_returns; [|done].
    apply keeps_call_value. apply I_callable; [done|]. apply builtin_elem; reflexivity. }
  destruct (re_file_test p).
  { intros st HI. rewrite bind_providers_get. apply keeps_returns; [|done].
    apply keeps_call_value. apply I_callable; [done|]. apply builtin_elem; reflexivity. }
  apply keeps_bind; [apply keeps_providers_in|]. intros [|]; [|apply keeps_ret].
  intros st HI. rewrite bind_providers_get.
  destruct (is_function _) eqn:Hfun; [|by apply keeps_ret].
  apply keeps_returns; [|done]. apply keeps_call_value. by right.
Qed.

Lemma keeps_from_local_file (s : string) :
  (isBrowser P = false → ∀ ev, probe_event s ev → L ev) →
  keeps I E (from_local_file P s).
Proof.
  intros HL. unfold from_local_file.
  destruct (isBrowser P); [apply keeps_ret|]. simpl.
  assert (HLs : ∀ ev, probe_event s ev → L ev) by by apply HL.
  apply (keeps_try_catch (λ _, True)).
  - apply keeps_bind; [apply keeps_log, HLs; by left|]. intros _.
    apply keeps_bind; [by apply keeps_lift|]. intros _.
    apply keeps_bind; [apply keeps_log, HLs; right; by left|]. intros _.
    apply keeps_bind; [by apply keeps_lift|]. intros [|]; [|apply keeps_ret].
    apply (keeps_mono E); [done|].
    intros st HI. rewrite bind_providers_get. apply keeps_returns; [|done].
    apply keeps_call_value. apply I_callable; [done|]. apply builtin_elem; reflexivity.
  - intros e. apply keeps_bind; [|intros _; apply keeps_ret].
    apply keeps_log, HLs. right; right. by exists e.
Qed.

Lemma keeps_memory (bytes : list byte) :
  keeps I E (buffer ← alloc (Object (KBuffer bytes) ∅);
             memory ← providers_get "memory";
             call P memory [VObj buffer]).
Proof.
  apply keeps_bind; [apply keeps_alloc|]. intros buffer.
  apply keeps_builtin, builtin_elem; reflexivity.
Qed.

Lemma keeps_from_string_memory (s : string) :
  keeps I E (from_string_memory P s opts).
Proof.
  unfold from_string_memory. destruct (_ <? _); [|apply keeps_ret].
  apply keeps_bind; [apply keeps_get|]. intros enc.
  apply keeps_bind; [apply keeps_lift, E_string|]. intros bytes.
  apply keeps_bind; [apply keeps_alloc|]. intros buffer.
  intros st HI. rewrite bind_providers_get. apply keeps_returns; [|done].
  apply keeps_call_value. apply I_callable; [done|]. apply builtin_elem; reflexivity.
Qed.

Lemma keeps_from_string_tail (s : string) :
  (isBrowser P = false → ∀ ev, probe_event s ev → L ev) →
  keeps I E (from_string_tail P s opts).
Proof.
  intros HL. unfold from_string_tail.
  apply keeps_bind; [by apply keeps_from_local_file|].
  intros [v|]; [apply keeps_ret|apply keeps_from_string_memory].
Qed.

Lemma keeps_from_string (s : string) :
  (isBrowser P = false → ∀ ev, probe_event s ev → L ev) →
  keeps I E (from_string P s opts).
Proof.
  intros HL. unfold from_string.
  apply keeps_bind; [apply keeps_lift, E_parse|]. intros [protocol pathname].
  apply keeps_bind; [apply keeps_get|]. intros file.
  destruct (_ && _).
  { intros st HI. rewrite bind_providers_get. apply keeps_returns; [|done].
    apply keeps_call_value. apply I_callable; [done|]. apply builtin_elem; reflexivity. }
  apply keeps_bind; [apply keeps_from_protocol|].
  intros [v|]; [apply keeps_ret|by apply keeps_from_string_tail].
Qed.

Lemma keeps_from_number (input : value) : keeps I E (from_number P input).
Proof.
  unfold from_number. apply keeps_bind; [|intros bytes; apply keeps_memory].
  apply keeps_lift. intros e. unfold Buffer_alloc.
  destruct (number_of input) as [|neg|q]; try by intros [= <-].
  destruct (_ && _); [|by intros [= <-]].
  destruct (has_memory P _); [done|]. by intros [= <-].
Qed.

Lemma keeps_from_bufferLike (l : loc) :
  keeps I E (from_bufferLike P (VObj l) opts).
Proof.
  unfold from_bufferLike. apply keeps_bind; [apply keeps_get_heap|].
  intros h. apply keeps_bind; [|intros bytes; apply keeps_memory].
  assert (Hel : ∀ o es, keeps I E (lift (from_elements P h o es))).
  { intros o es. apply keeps_lift. unfold from_elements.
    destruct (forallb _ _); [done|]. apply E_exotic. }
  unfold ArrayBuffer_region, Buffer_from_object.
  destruct (okind (deref h l)); try by apply keeps_lift.
  - destruct (prop _ "length"); try apply Hel;
      apply keeps_lift, E_exotic.
  - apply Hel.
  - apply keeps_bind; [apply keeps_get|]. intros byteOffset.
    apply keeps_bind; [apply keeps_get|]. intros len.
    apply keeps_lift, E_arrayBuffer.
Qed.

Lemma keeps_from_object (l : loc) : keeps I E (from_object P l).
Proof.
  unfold from_object.
  do 4 (apply keeps_bind; [apply keeps_get|]; intros ?).
  destruct (_ || _); [apply keeps_ret|apply keeps_call].
Qed.

Lemma keeps_from_rest self (input : value) :
  (is_function input = true → ∀ v, keeps I E (self v (VObj opts))) →
  keeps I E (from_rest P self input opts).
Proof.
  intros Hself. unfold from_rest.
  destruct (_ && _); [apply keeps_from_number|].
  apply keeps_bind; [apply keeps_get_heap|]. intros h.
  destruct input as [| |b|n|e|i|l|f];
    try (apply keeps_builtin, builtin_elem; reflexivity).
  - destruct (isBufferLike _ _);
      [apply keeps_from_bufferLike|apply keeps_from_object].
  - apply keeps_bind; [apply keeps_call|]. by apply Hself.
Qed.

Lemma keeps_from_body self (input : value) :
  (∀ s, input = VStr s →
     isBrowser P = false → ∀ ev, probe_event s ev → L ev) →
  (is_function input = true → ∀ v, keeps I E (self v (VObj opts))) →
  keeps I E (from_body P self input opts).
Proof.
  intros HL Hself. unfold from_body. apply keeps_bind.
  - destruct input; try apply keeps_ret. apply keeps_from_string. eauto.
  - intros [v|]; [apply keeps_ret|]. by apply keeps_from_rest.
Qed.

(** The recursion keeps the invariant, however deep it goes. *)
Lemma keeps_from (fuel : nat) :
  (isBrowser P = false → ∀ ev, L ev) →
  ∀ input, keeps I E (from P fuel input (VObj opts)).
Proof.
  intros HL. induction fuel as [|fuel IH]; intros input st HI.
  { split; [done|]. by intros e [= <-]. }
  destruct (I_normalize st HI) as (st' & Hnorm & HI').
  simpl. rewrite (bind_Ok _ _ _ _ _ Hnorm).
  apply keeps_from_body; eauto.
Qed.

End Invariant.

Lemma callable_provider (st : state) (name : string) :
  callable_table st → name ∈ builtin_names →
  is_function (provider (providers st) name) = true.
Proof.
  intros Htable Hname. destruct (Htable name Hname) as [f Hf].
  by rewrite (provider_own _ _ _ Hf).
Qed.

Lemma from_finite_number (fuel : nat) (q : Q) (optsOrEncoding : value)
    (st : state) :
  (0 <= q)%Q → (q <= inject_Z (kMaxLength P))%Q →
  has_memory P (Qfloor q) = true →
  ∃ h2 opts,
    normalize optsOrEncoding st
      = (State h2 (providers st) (io st) (frozen st), Ok opts) ∧
    from P (S fuel) (VNum (Finite q)) optsOrEncoding st =
      (buffer ← alloc (Object (KBuffer
                   (replicate (Z.to_nat (Qfloor q)) zero_byte)) ∅);
       memory ← providers_get "memory";
       call P memory [VObj buffer])
        (State h2 (providers st) (io st) (frozen st)).
Proof.
  intros H0 Hmax Hmem.
  destruct (from_run fuel (VNum (Finite q)) optsOrEncoding st)
    as (h2 & opts & Hrun & Hnorm & ->).
  exists h2, opts. split; [done|].
  rewrite from_body_not_string by done.
  unfold from_rest. simpl.
  apply Qle_bool_iff in H0. rewrite H0.
  unfold from_number. rewrite bind_lift. simpl.
  apply Qle_bool_iff in Hmax. by rewrite H0, Hmax, Hmem.
Qed.

(** *** The errors of a dispatch *)

Lemma hoare_ret {A} (Pre : state → Prop) (Post : A → state → Prop)
    (Exc : error → state → Prop) (a : A) :
  (∀ st, Pre st → Post a st) → hoare Pre (mret a) Post Exc.
Proof. intros H st Hst. by apply H. Qed.

Lemma hoare_bind {A B} (Pre : state → Prop) (Mid : A → state → Prop)
    (Post : B → state → Prop) (Exc : error → state → Prop)
    (m : M A) (f : A → M B) :
  hoare Pre m Mid Exc → (∀ a, hoare (Mid a) (f a) Post Exc) →
  hoare Pre (m ≫= f) Post Exc.
Proof.
  intros Hm Hf st Hst. specialize (Hm st Hst). unfold mbind, M_bind.
  destruct (m st) as [st' [a|e|]]; [by apply Hf|done..].
Qed.

Lemma hoare_lift {A B} (Pre : state → Prop) (Post : B → state → Prop)
    (Exc : error → state → Prop) (r : result A) (f : A → M B) :
  (∀ a, r = Ok a → hoare Pre (f a) Post Exc) →
  (∀ e st, r = Throw e → Pre st → Exc e st) →
  hoare Pre (lift r ≫= f) Post Exc.
Proof.
  intros Hf He st Hst. rewrite bind_lift.
  destruct r as [a|e|]; [by apply Hf|by apply He|done].
Qed.

Lemma hoare_pre {A} (Pre Pre' : state → Prop) (Post : A → state → Prop)
    (Exc : error → state → Prop) (m : M A) :
  (∀ st, Pre' st → Pre st) → hoare Pre m Post Exc → hoare Pre' m Post Exc.
Proof. intros Hsub Hm st Hst. by apply Hm, Hsub. Qed.

Lemma hoare_try_catch {A} (Pre : state → Prop) (Post : A → state → Prop)
    (Exc Exc' : error → state → Prop) (m : M A) (h : error → M A) :
  hoare Pre m Post Exc' → (∀ e, hoare (Exc' e) (h e) Post Exc) →
  hoare Pre (try_catch m h) Post Exc.
Proof.
  intros Hm Hh st Hst. specialize (Hm st Hst). unfold try_catch.
  destruct (m st) as [st' [a|e|]]; [done|by apply Hh|done].
Qed.

Section Errors.

(** The objects [h2] and the provider [table] once the options are
    normalized, and the options record [opts].  The built-in providers are
    functions, and no function that is called throws. *)
Variable h2 : gmap loc object.
Variable table : gmap string value.
Variable opts : loc.

Hypothesis H_callable : ∀ name, name ∈ builtin_names →
  is_function (provider table name) = true.
Hypothesis H_returns : ∀ f args st e, (apply P f args st).2 ≠ Throw e.

(** A call ends the dispatch: whatever state it leaves, its result is the
    result. *)
Lemma hoare_call {A} (Pre : state → Prop) (Post : A → state → Prop)
    (Exc : error → state → Prop) (v : value) (args : list value)
    (wrap : value → A) :
  is_function v = true → (∀ v' st, Post (wrap v') st) →
  hoare Pre (wrap <$> call P v args) Post Exc.
Proof.
  intros Hv Hpost st Hst. destruct v; try done.
  unfold fmap, M_fmap, mbind, M_bind, call. simpl.
  pose proof (H_returns f args st) as Hne.
  destruct (apply P f args st) as [st' [v'|e|]]; simpl in *;
    [apply Hpost|by destruct (Hne e)|done].
Qed.

Lemma hoare_call_value (Pre : state → Prop) (Exc : error → state → Prop)
    (v : value) (args : list value) :
  is_function v = true → hoare Pre (call P v args) (λ _ _, True) Exc.
Proof.
  intros Hv st Hst. destruct v; try done. unfold call.
  pose proof (H_returns f args st) as Hne.
  destruct (apply P f args st) as [st' [v'|e|]]; simpl in *;
    [done|by destruct (Hne e)|done].
Qed.

Lemma hoare_builtin {A} (Pre : state → Prop) (Post : A → state → Prop)
    (Exc : error → state → Prop) (name : string) (args : list value)
    (wrap : value → A) :
  name ∈ builtin_names → (∀ st, Pre st → providers st = table) →
  (∀ v' st, Post (wrap v') st) →
  hoare Pre (f ← providers_get name; wrap <$> call P f args) Post Exc.
Proof.
  intros Hname Hpre Hpost st Hst. rewrite bind_providers_get.
  rewrite (Hpre st Hst).
  by apply (hoare_call Pre); [apply H_callable| |].
Qed.

Lemma hoare_next (Pre : state → Prop) (Exc : error → state → Prop) :
  (∀ st, Pre st → untouched h2 table st) →
  hoare Pre next_rule (λ r st, r = None → untouched h2 table st) Exc.
Proof. intros Hpre. apply hoare_ret. intros st Hst _. by apply Hpre. Qed.

Lemma hoare_from_protocol (Exc : error → state → Prop) (s : string)
    (protocol pathname : option string) :
  hoare (untouched h2 table) (from_protocol P s opts protocol pathname)
    (λ r st, r = None → untouched h2 table st) Exc.
Proof.
  assert (Hnext : hoare (untouched h2 table) next_rule
            (λ r st, r = None → untouched h2 table st) Exc)
    by by apply hoare_next.
  assert (Hbuiltin : ∀ name args, name ∈ builtin_names →
    hoare (untouched h2 table)
      (f ← providers_get name; returns $ call P f args)
      (λ r st, r = None → untouched h2 table st) Exc).
  { intros name args Hname.
    by apply (hoare_builtin _ _ _ _ _ Some); [|intros st [_ ?]|]. }
  unfold from_protocol. destruct protocol as [p|]; [|done].
  destruct (truthy (VStr p)); [|done].
  destruct (re_https_test p); [apply Hbuiltin, builtin_elem; reflexivity|].
  destruct (re_file_test p); [apply Hbuiltin, builtin_elem; reflexivity|].
  apply (hoare_bind _ (λ _, untouched h2 table)); [by intros st Hst|].
  intros [|]; [|done].
  apply (hoare_bind _ (λ _, untouched h2 table)); [by intros st Hst|].
  intros provider. destruct (is_function provider) eqn:Hfun; [|done].
  by apply (hoare_call _ _ _ _ _ Some).
Qed.

Lemma hoare_from_local_file (Exc : error → state → Prop) (s : string) :
  hoare (untouched h2 table) (from_local_file P s)
    (λ r st, r = None → untouched h2 table st) Exc.
Proof.
  unfold from_local_file.
  destruct (isBrowser P); [by apply hoare_next|]. simpl.
  apply (hoare_try_catch _ _ _ (λ _, untouched h2 table)).
  - apply (hoare_bind _ (λ _, untouched h2 table)); [by intros st Hst|].
    intros _. apply hoare_lift; [|done]. intros _ _.
    apply (hoare_bind _ (λ _, untouched h2 table)); [by intros st Hst|].
    intros _. apply hoare_lift; [|done]. intros isFile _.
    destruct isFile; [|by apply hoare_next].
    apply (hoare_builtin _ _ _ _ _ Some); [|by intros st [_ ?]|done].
    apply builtin_elem; reflexivity.
  - intros e.
    apply (hoare_bind _ (λ _, untouched h2 table)); [by intros st Hst|].
    intros _. by apply hoare_next.
Qed.

Lemma hoare_memory {A} (Pre : state → Prop) (Post : A → state → Prop)
    (Exc : error → state → Prop) (bytes : list byte) (wrap : value → A) :
  (∀ st, Pre st → providers st = table) → (∀ v' st, Post (wrap v') st) →
  hoare Pre (buffer ← alloc (Object (KBuffer bytes) ∅);
             memory ← providers_get "memory";
             wrap <$> call P memory [VObj buffer]) Post Exc.
Proof.
  intros Hpre Hpost.
  apply (hoare_bind _ (λ _ st, providers st = table));
    [intros st Hst; unfold alloc; simpl; by apply Hpre|].
  intros buffer. apply hoare_builtin; [|done..].
  apply builtin_elem; reflexivity.
Qed.

Lemma hoare_memory_value (Pre : state → Prop) (Exc : error → state → Prop)
    (bytes : list byte) :
  (∀ st, Pre st → providers st = table) →
  hoare Pre (buffer ← alloc (Object (KBuffer bytes) ∅);
             memory ← providers_get "memory";
             call P memory [VObj buffer]) (λ _ _, True) Exc.
Proof.
  intros Hpre.
  apply (hoare_bind _ (λ _ st, providers st = table));
    [intros st Hst; unfold alloc; simpl; by apply Hpre|].
  intros buffer st Hst. rewrite bind_providers_get, Hst.
  apply (hoare_call_value (λ st, providers st = table)); [|done].
  apply H_callable, builtin_elem. reflexivity.
Qed.

Lemma hoare_from_string_memory (s : string) :
  hoare (untouched h2 table) (from_string_memory P s opts)
    (λ r st, r = None → untouched h2 table st)
    (λ e _, s ≠ "" ∧
            Buffer_from_string P s (prop (deref h2 opts) "encoding")
            = Throw e).
Proof.
  unfold from_string_memory.
  destruct (_ <? _) eqn:Hlen; [|by apply hoare_next].
  assert (Hs : s ≠ "") by (by intros ->).
  apply (hoare_bind _ (λ encoding st,
           untouched h2 table st ∧
           encoding = prop (deref h2 opts) "encoding"));
    [by intros st [<- ?]|].
  intros encoding. apply hoare_lift; [|by intros e st He [_ <-]].
  intros bytes _. apply (hoare_memory _ _ _ _ Some); [|done].
  by intros st [[_ ?] _].
Qed.

Lemma hoare_from_string (s : string) :
  hoare (untouched h2 table) (from_string P s opts)
    (λ r st, r = None → untouched h2 table st)
    (λ e _, conversion_error P h2 opts (VStr s) e).
Proof.
  unfold from_string.
  apply hoare_lift; [|by intros e st He _; left].
  intros [protocol pathname] _.
  apply (hoare_bind _ (λ _, untouched h2 table)); [by intros st Hst|].
  intros file. destruct (_ && _).
  { apply (hoare_builtin _ _ _ _ _ Some); [|by intros st [_ ?]|done].
    apply builtin_elem; reflexivity. }
  eapply hoare_bind; [apply hoare_from_protocol|].
  intros [v|]; [by apply hoare_ret|].
  apply (hoare_pre (untouched h2 table)); [by intros st Hst; apply Hst|].
  unfold from_string_tail.
  eapply hoare_bind; [apply hoare_from_local_file|].
  intros [v|]; [by apply hoare_ret|].
  apply (hoare_pre (untouched h2 table)); [by intros st Hst; apply Hst|].
  intros st Hst. pose proof (hoare_from_string_memory s st Hst) as H.
  destruct (from_string_memory P s opts st) as [st' [r|e|]]; try done.
  by right.
Qed.

Lemma hoare_default (Pre : state → Prop) (Exc : error → state → Prop)
    (input : value) :
  (∀ st, Pre st → providers st = table) →
  hoare Pre (default ← providers_get "default";
             call P default [input; VObj opts]) (λ _ _, True) Exc.
Proof.
  intros Hpre st Hst. rewrite bind_providers_get, (Hpre st Hst).
  apply (hoare_call_value Pre); [|done].
  apply H_callable, builtin_elem. reflexivity.
Qed.

(** The dispatch of an input that is not a function, below the
    normalization of the options. *)
Lemma hoare_from_body self (input : value) :
  is_function input = false →
  hoare (untouched h2 table) (from_body P self input opts)
    (λ _ _, True) (λ e _, conversion_error P h2 opts input e).
Proof.
  intros Hinput. unfold from_body.
  apply (hoare_bind _ (λ r st, r = None → untouched h2 table st)).
  { destruct input; try by apply hoare_next. apply hoare_from_string. }
  intros [v|]; [by apply hoare_ret|].
  apply (hoare_pre (untouched h2 table)); [by intros st Hst; apply Hst|].
  unfold from_rest.
  destruct (isNumber input && ge_zero (number_of input)) eqn:Hnum.
  { destruct input as [| |b|n|e|i|l|f]; try done. simpl in Hnum.
    assert (Hge : ge_zero n = true) by (by destruct n).
    unfold from_number. simpl.
    apply hoare_lift; [|by intros e st He _].
    intros bytes _. apply hoare_memory_value. by intros st [_ ?]. }
  apply (hoare_bind _ (λ h st, untouched h2 table st ∧ h = h2));
    [by intros st [<- ?]|].
  intros h. destruct (isBufferLike h input) eqn:Hlike.
  - destruct input as [| |b|n|e|i|l|f]; try done.
    unfold from_bufferLike.
    apply (hoare_bind _ (λ h' st,
             untouched h2 table st ∧ h = h2 ∧ h' = h2));
      [by intros st [[<- ?] ?]|].
    intros h'.
    apply (hoare_bind _ (λ _ st, providers st = table)).
    + destruct (ArrayBuffer_region h' (VObj l)) as [region|] eqn:Hregion.
      * apply (hoare_bind _ (λ byteOffset st,
                 untouched h2 table st ∧ h = h2 ∧ h' = h2 ∧
                 byteOffset = prop (deref h2 opts) "byteOffset")).
        { intros st ([Hh Ht] & ? & ?). simpl. by rewrite Hh. }
        intros byteOffset.
        apply (hoare_bind _ (λ len st,
                 untouched h2 table st ∧ h = h2 ∧ h' = h2 ∧
                 byteOffset = prop (deref h2 opts) "byteOffset" ∧
                 len = prop (deref h2 opts) "length")).
        { intros st ([Hh Ht] & ? & ? & ?). simpl. by rewrite Hh. }
        intros len st ([_ Ht] & -> & -> & -> & ->). unfold lift.
        destruct (Buffer_from_arrayBuffer _ _ _ _) eqn:Hview; try done.
        unfold conversion_error. by rewrite Hregion.
      * intros st ([_ Ht] & -> & ->). unfold lift.
        destruct (Buffer_from_object _ _ _) eqn:Hbytes; try done.
        unfold conversion_error. by rewrite Hregion.
    + intros bytes. by apply hoare_memory_value.
  - destruct input as [| |b|n|e|i|l|f]; try done;
      try (apply hoare_default; by intros st [[_ ?] _]).
    unfold from_object.
    do 4 (apply (hoare_bind _ (λ _ _, True)); [by intros st Hst|];
          intros ?).
    destruct (_ || _); [by apply hoare_ret|].
    by apply hoare_call_value.
Qed.

End Errors.




(** C6 (amended). Suppose the four built-in providers are functions and no
    function that is called throws, and let the options be normalized.
    Whatever the probe of the file system does, an error that the dispatch
    of an input that is no function raises is thrown by a conversion of
    that input: [url.parse] or [Buffer.from] of a string, [Buffer.alloc] of
    a number, [Buffer.from] of a buffer-like object.  For a function, the
    error is that of the dispatch of what the function returned, which is
    the range error of the exhausted stack when the stack has no room for
    it.  On a finite number between zero and the largest buffer length,
    whole or not, for which the memory can be had, the result is the result
    of the memory provider on a new zero-filled buffer. *)
Theorem from_raises_conversion_errors (fuel : nat)
    (input optsOrEncoding : value) (st : state) :
  callable_table st →
  (∀ f args s e, (apply P f args s).2 ≠ Throw e) →
  ∃ st2 opts,
    normalize optsOrEncoding st = (st2, Ok opts) ∧
    (is_function input = false →
     ∀ e, (from P (S fuel) input optsOrEncoding st).2 = Throw e →
          conversion_error P (heap st2) opts input e) ∧
    (is_function input = true →
     ∀ e, (from P (S fuel) input optsOrEncoding st).2 = Throw e →
       ∃ next st3,
         call P input [VObj opts] st2 = (st3, Ok next) ∧
         (from P fuel next (VObj opts) st3).2 = Throw e ∧
         (fuel = 0%nat → e = StackOverflow)) ∧
    (∀ q, input = VNum (Finite q) →
       (0 <= q)%Q → (q <= inject_Z (kMaxLength P))%Q →
       has_memory P (Qfloor q) = true →
       ∃ memory st3 buffer,
         providers st !! "memory" = Some (VFun memory) ∧
         alloc (Object (KBuffer (replicate (Z.to_nat (Qfloor q)) zero_byte))
                  ∅) st2 = (st3, Ok buffer) ∧
         from P (S fuel) input optsOrEncoding st
         = apply P memory [VObj buffer] st3).
Proof.
  intros Htable Hreturns.
  destruct (from_run fuel input optsOrEncoding st)
    as (h2 & opts & Hrun & Hnorm & Hfrom).
  set (st2 := State h2 (providers st) (io st) (frozen st)) in *.
  exists st2, opts. split; [done|]. split; [|split].
  - intros Hinput e He. rewrite Hfrom in He.
    pose proof (hoare_from_body h2 (providers st) opts
                  (λ name, callable_provider st name Htable) Hreturns
                  (from P fuel) input Hinput st2 (conj eq_refl eq_refl)) as H.
    destruct (from_body P (from P fuel) input opts st2) as [st' [v|e'|]];
      try done.
    simpl in He. by injection He as ->.
  - intros Hinput e He. rewrite Hfrom in He.
    destruct input as [| |b|n|s|i|l|f]; try done.
    rewrite from_body_not_string in He by done.
    unfold from_rest in He. simpl in He.
    unfold mbind, M_bind, get_heap in He. simpl in He.
    pose proof (Hreturns f [VObj opts] st2) as Hne. unfold call in *.
    destruct (apply P f [VObj opts] st2) as [st3 [next|e'|]] eqn:Hcall;
      simpl in *; [|by destruct (Hne e')|done].
    exists next, st3. split; [done|]. split; [done|].
    intros ->. simpl in He. by injection He as <-.
  - intros q -> H0 Hmax Hmem.
    destruct (Htable "memory") as [memory Hmemory];
      [apply builtin_elem; reflexivity|].
    destruct (from_finite_number fuel q optsOrEncoding st H0 Hmax Hmem)
      as (h2' & opts' & Hrun' & ->).
    rewrite Hrun in Hrun'. injection Hrun' as <- <-.
    eexists memory, _, _. split; [done|]. split; [done|].
    unfold mbind at 1, M_bind at 1, alloc. simpl.
    rewrite bind_providers_get. simpl.
    by rewrite (provider_own _ _ _ Hmemory).
Qed.

Lemma after_default_normalized (fr : gset loc) (h : gmap loc object)
    (opts l : loc) (o : object) :
  h !! l = Some o →
  opts ∈ fr ∨ needs_default (prop (deref h opts) "encoding") = false →
  after_default fr (VObj opts) l o = o.
Proof.
  intros Hl Hopts. unfold after_default.
  destruct (decide (opts = l)) as [->|]; [|done].
  destruct (decide (l ∈ fr)) as [|Hf]; [done|].
  destruct Hopts as [?|Henc]; [done|].
  rewrite (deref_lookup _ _ _ Hl) in Henc.
  unfold with_default. by rewrite Henc.
Qed.

(** Normalizing again with the record already in effect changes no
    object. *)
Lemma normalize_again (opts : loc) (st : state) :
  opts ∈ frozen st
  ∨ needs_default (prop (deref (heap st) opts) "encoding") = false →
  ∃ h,
    normalize (VObj opts) st
      = (State h (providers st) (io st) (frozen st), Ok opts) ∧
    heap st ⊆ h.
Proof.
  intros Hopts.
  destruct (normalize_run (VObj opts) st) as (h & opts' & Hn & Hnd).
  pose proof (norm_object _ _ _ _ Hnd) as Ho. simpl in Ho. subst opts'.
  exists h. split; [done|]. apply map_subseteq_spec. intros l o Hl.
  rewrite (norm_frame _ _ _ _ Hnd l o Hl).
  by rewrite (after_default_normalized _ _ _ _ _ Hl Hopts).
Qed.

(** Once the options are normalized, normalizing the record again changes
    no object, in any later state that still holds the objects. *)
Lemma normalized_again (optsOrEncoding : value) (st s : state)
    (h2 : gmap loc object) (opts : loc) :
  normalized optsOrEncoding st h2 opts →
  h2 ⊆ heap s → frozen s = frozen st →
  ∃ h,
    normalize (VObj opts) s
      = (State h (providers s) (io s) (frozen s), Ok opts) ∧
    heap s ⊆ h.
Proof.
  intros Hnorm Hsub Hfrozen. apply normalize_again. rewrite Hfrozen.
  pose proof (norm_frozen _ _ _ _ Hnorm) as Hfr.
  destruct (decide (opts ∈ frozen st)) as [Hf|Hf]; [by left|right].
  rewrite bool_decide_eq_false_2 in Hfr by done.
  destruct (norm_stored _ _ _ _ Hnorm) as [o2 Ho2]; [done|].
  pose proof (norm_encoding _ _ _ _ Hnorm) as Henc.
  unfold effective_encoding in Henc. rewrite <- Hfr in Henc.
  unfold deref. rewrite (lookup_weaken _ _ _ _ Ho2 Hsub).
  unfold deref in Henc. rewrite Ho2 in Henc. simpl in *. rewrite Henc.
  apply needs_default_string, active_encoding_nonempty.
Qed.

(** *** What a dispatch leaves behind *)

Section Frame.

(** The functions that get called change no object that exists, freeze
    none, leave the provider table as it is and log nothing. *)
Hypothesis H_quiet : ∀ f args s,
  heap s ⊆ heap (apply P f args s).1 ∧
  providers (apply P f args s).1 = providers s ∧
  io (apply P f args s).1 = io s ∧
  frozen (apply P f args s).1 = frozen s.

(** The objects, the provider table and the frozen ones. *)
Lemma from_store (fuel : nat) (input optsOrEncoding : value) (st : state) :
  providers (from P (S fuel) input optsOrEncoding st).1 = providers st ∧
  frozen (from P (S fuel) input optsOrEncoding st).1 = frozen st ∧
  ∀ l o, heap st !! l = Some o →
    heap (from P (S fuel) input optsOrEncoding st).1 !! l
    = Some (after_default (frozen st) optsOrEncoding l o).
Proof.
  destruct (from_run fuel input optsOrEncoding st)
    as (h2 & opts & Hrun & Hnorm & ->).
  set (st2 := State h2 (providers st) (io st) (frozen st)).
  set (E := λ _ : error, True).
  set (I1 := λ s, h2 ⊆ heap s ∧ providers s = providers st
                  ∧ frozen s = frozen st).
  assert (I1_alloc : ∀ s o, I1 s → I1 (alloc o s).1).
  { intros s o (Hsub & Hp & Hf). split; [|done]. simpl.
    etrans; [done|]. apply insert_subseteq, fresh_unused. }
  assert (I1_apply : ∀ s f args, I1 s →
    I1 (apply P f args s).1 ∧ ∀ e, (apply P f args s).2 = Throw e → E e).
  { intros s f args (Hsub & Hp & Hf).
    destruct (H_quiet f args s) as (? & ? & ? & ?).
    split; [|done]. split; [by etrans|]. split; congruence. }
  assert (I1_normalize : ∀ s, I1 s →
    ∃ s', normalize (VObj opts) s = (s', Ok opts) ∧ I1 s').
  { intros s (Hsub & Hp & Hf).
    destruct (normalized_again _ _ s _ _ Hnorm Hsub Hf) as (h & Hn & Hh).
    eexists. split; [done|]. split; [by etrans|done]. }
  assert (H1 : I1 (from_body P (from P fuel) input opts st2).1).
  { apply (keeps_from_body I1 (λ _, True) E opts); try done.
    - by left.
    - intros _. apply (keeps_from I1 (λ _, True) E opts); try done.
      by left. }
  destruct H1 as (Hsub & Hp & Hf). do 2 (split; [done|]).
  intros l o Hl.
  by apply (lookup_weaken _ _ _ _ (norm_frame _ _ _ _ Hnorm l o Hl)).
Qed.

(** No probe in a browser, nor for an input that is neither a string nor a
    function. *)
Lemma from_io_none (fuel : nat) (input optsOrEncoding : value) (st : state) :
  isBrowser P = true ∨ (is_string input = false ∧ is_function input = false) →
  io (from P fuel input optsOrEncoding st).1 = io st.
Proof.
  intros Hcase. destruct fuel as [|fuel]; [done|].
  destruct (from_run fuel input optsOrEncoding st)
    as (h2 & opts & Hrun & Hnorm & ->).
  set (E := λ _ : error, True).
  set (I2 := λ s, io s = io st).
  assert (I2_apply : ∀ s f args, I2 s →
    I2 (apply P f args s).1 ∧ ∀ e, (apply P f args s).2 = Throw e → E e).
  { intros s f args Hs. destruct (H_quiet f args s) as (? & ? & ? & ?).
    split; [|done]. unfold I2 in *. congruence. }
  assert (I2_normalize : ∀ s, I2 s →
    ∃ s', normalize (VObj opts) s = (s', Ok opts) ∧ I2 s').
  { intros s Hs. destruct (normalize_run (VObj opts) s)
      as (h & opts' & Hn & Hnd).
    pose proof (norm_object _ _ _ _ Hnd) as Ho. simpl in Ho. subst opts'.
    by eexists. }
  apply (keeps_from_body I2 (λ _, False) E opts); try done.
  + by left.
  + intros s -> Hb. destruct Hcase as [?|[? _]]; [congruence|done].
  + intros Hf. destruct Hcase as [Hb|[_ ?]]; [|congruence].
    apply (keeps_from I2 (λ _, False) E opts); try done; [by left|].
    congruence.
Qed.

(** The probe of a string input. *)
Lemma from_io_string (fuel : nat) (s : string) (optsOrEncoding : value)
    (st : state) :
  ∃ evs, io (from P fuel (VStr s) optsOrEncoding st).1 = io st ++ evs ∧
         Forall (probe_event s) evs.
Proof.
  destruct fuel as [|fuel]; [exists []; by rewrite app_nil_r|].
  destruct (from_run fuel (VStr s) optsOrEncoding st)
    as (h2 & opts & Hrun & Hnorm & ->).
  set (E := λ _ : error, True).
  set (I3 := λ s', ∃ evs, io s' = io st ++ evs ∧ Forall (probe_event s) evs).
  apply (keeps_from_body I3 (probe_event s) E opts); try done.
  + intros s' ev Hev (evs & Hio & Hevs). exists (evs ++ [ev]).
    simpl. rewrite Hio, app_assoc. split; [done|].
    apply Forall_app. by split; [|constructor].
  + intros s' f args (evs & Hio & Hevs).
    destruct (H_quiet f args s') as (? & ? & Hio' & ?).
    split; [|done]. exists evs. by rewrite Hio'.
  + by left.
  + by intros s' [= <-].
  + exists []. by rewrite app_nil_r.
Qed.

(** Whatever the input, at most one string is probed: the input, or a
    string that a function returned. *)
Lemma from_io_probe (fuel : nat) (input optsOrEncoding : value) (st : state) :
  ∃ evs, io (from P fuel input optsOrEncoding st).1 = io st ++ evs ∧
         probe_of P input evs.
Proof.
  revert input optsOrEncoding st.
  induction fuel as [|fuel IH]; intros input optsOrEncoding st.
  { exists []. rewrite app_nil_r. split; [done|by left]. }
  destruct (is_string input) eqn:Hstr.
  { destruct input as [| |b|n|s|i|l|f]; try done.
    destruct (from_io_string (S fuel) s optsOrEncoding st)
      as (evs & Hio & Hevs).
    exists evs. split; [done|]. right. exists s. split; [done|by left]. }
  destruct (is_function input) eqn:Hfun.
  2:{ exists []. rewrite app_nil_r. split; [|by left].
      apply from_io_none. by right. }
  destruct input as [| |b|n|s|i|l|f]; try done.
  destruct (from_run fuel (VFun f) optsOrEncoding st)
    as (h2 & opts & Hrun & Hnorm & ->).
  set (st2 := State h2 (providers st) (io st) (frozen st)).
  rewrite from_body_not_string by done.
  unfold from_rest. simpl. unfold mbind, M_bind, get_heap, call. simpl.
  destruct (H_quiet f [VObj opts] st2) as (_ & _ & Hio & _).
  destruct (apply P f [VObj opts] st2) as [st3 [next|e|]] eqn:Hcall;
    simpl in Hio |- *;
    try (exists []; rewrite app_nil_r; split; [done|by left]).
  destruct (IH next (VObj opts) st3) as (evs & Hevs & Hprobe).
  exists evs. rewrite Hevs, Hio. split; [done|].
  destruct Hprobe as [->|(path & Hpath & Hfrom)]; [by left|].
  right. exists path. split; [done|]. right. split; [done|].
  destruct Hfrom as [->|[_ ?]]; [|done].
  exists f, opts, st2. by rewrite Hcall.
Qed.

End Frame.

(** C8 (amended). Suppose the functions that get called change no object
    that exists, freeze none, leave the provider table as it is and log
    nothing.  Then a call of [from] leaves the provider table as it was and
    every object as it was, the input included, except that the caller's
    options record, unless it is frozen, gets ["utf8"] as its [encoding]
    when that field was missing, falsy or not a string.  The I/O [from] does
    itself is the probe of the file system for one string outside a browser:
    the input when it is a string, a string that a function returned when
    the input is a function; none in a browser, none for an input that is
    neither a string nor a function. *)
Theorem from_frame (fuel : nat) (input optsOrEncoding : value) (st : state) :
  (∀ f args s,
     heap s ⊆ heap (apply P f args s).1 ∧
     providers (apply P f args s).1 = providers s ∧
     io (apply P f args s).1 = io s ∧
     frozen (apply P f args s).1 = frozen s) →
  providers (from P (S fuel) input optsOrEncoding st).1 = providers st ∧
  (∀ l o, heap st !! l = Some o →
     heap (from P (S fuel) input optsOrEncoding st).1 !! l
     = Some (after_default (frozen st) optsOrEncoding l o)) ∧
  (isBrowser P = true ∨ (is_string input = false ∧ is_function input = false) →
     io (from P (S fuel) input optsOrEncoding st).1 = io st) ∧
  (∀ s, input = VStr s →
     ∃ evs, io (from P (S fuel) input optsOrEncoding st).1 = io st ++ evs ∧
            Forall (probe_event s) evs) ∧
  (∃ evs, io (from P (S fuel) input optsOrEncoding st).1 = io st ++ evs ∧
          probe_of P input evs).
Proof.
  intros Hquiet.
  destruct (from_store Hquiet fuel input optsOrEncoding st)
    as (Hp & _ & Hheap).
  split; [done|]. split; [done|]. split; [|split].
  - by apply from_io_none.
  - intros s ->. by apply from_io_string.
  - by apply from_io_probe.
Qed.

End Properties.

(** The sample providers never throw, and they change nothing that
    exists. *)
Lemma invoke_Ok (f : fn) (args : list value) (st : state) :
  ∃ v, (Sample.invoke f args st).2 = Ok v.
Proof.
  unfold Sample.invoke.
  destruct f as [[|[|[|[|[|id]]]]]|name|]; by eexists.
Qed.

Lemma invoke_quiet (f : fn) (args : list value) (st : state) :
  heap st ⊆ heap (Sample.invoke f args st).1 ∧
  providers (Sample.invoke f args st).1 = providers st ∧
  io (Sample.invoke f args st).1 = io st ∧
  frozen (Sample.invoke f args st).1 = frozen st.
Proof.
  assert (Hsub : heap st ⊆
    <[fresh (dom (heap st) ∪ frozen st) := Sample.record_call f args]>
      (heap st))
    by apply insert_subseteq, fresh_unused.
  unfold Sample.invoke.
  by destruct f as [[|[|[|[|[|id]]]]]|name|].
Qed.

Lemma table_callable (st : state) :
  providers st = Sample.table → callable_table st.
Proof.
  intros Htable name Hname. rewrite Htable. unfold builtin_names in Hname.
  repeat (apply elem_of_cons in Hname as [->|Hname]); try by eexists.
  by apply elem_of_nil in Hname.
Qed.

(** ** The dispatcher at work *)

Example from_http_url :
  Sample.made_by
    (from Sample.node 1 (VStr "http://example.com/a") VUndefined Sample.st0)
  = Some Sample.http.
Proof. vm_compute. reflexivity. Qed.

(** A [file:] URL and the name of a local file go to the file provider, the
    first with its path; neither with the options. *)
Example from_file_url :
  Sample.made_by
    (from Sample.node 1 (VStr "file:///etc/hosts") VUndefined Sample.st0)
  = Some Sample.file ∧
  Sample.made_from
    (from Sample.node 1 (VStr "file:///etc/hosts") VUndefined Sample.st0)
  = [VStr "/etc/hosts"; VUndefined].
Proof. split; vm_compute; reflexivity. Qed.

Example from_local_file_name :
  Sample.made_by
    (from Sample.node 1 (VStr "/etc/hosts") VUndefined Sample.st0)
  = Some Sample.file ∧
  Sample.made_from
    (from Sample.node 1 (VStr "/etc/hosts") VUndefined Sample.st0)
  = [VStr "/etc/hosts"; VUndefined].
Proof. split; vm_compute; reflexivity. Qed.

(** A factory costs one more call of [from] on the stack. *)
Example from_factory :
  (from Sample.node 1 (VFun Sample.three) VUndefined Sample.st0).2
  = Throw StackOverflow ∧
  Sample.made_by
    (from Sample.node 2 (VFun Sample.three) VUndefined Sample.st0)
  = Some Sample.memory.
Proof. split; vm_compute; reflexivity. Qed.

(** The tests of the protocol are not anchored, and [in] sees what the
    provider table inherits. *)
Example re_https_test_unanchored : re_https_test "git+https:" = true.
Proof. reflexivity. Qed.

Example from_git_https :
  Sample.made_by
    (from Sample.node 1 (VStr "git+https://example.com/r") VUndefined
       Sample.st0)
  = Some Sample.http.
Proof. vm_compute. reflexivity. Qed.

Example from_inherited_name :
  providers Sample.st0 !! "constructor" = None ∧
  Sample.made_by
    (from Sample.node 1 (VStr "constructor:x") VUndefined Sample.st0)
  = Some (ObjectProto "constructor").
Proof. split; vm_compute; reflexivity. Qed.

(** ** Counterexamples *)

(** Against C1: [data:,hello] has the protocol [data:] and a function is
    registered for it, yet with [{ file: true }] the handle comes from the
    file provider, called with the string and the options. *)
Lemma file_option_overrides_custom_protocol :
  Sample.parse "data:,hello" = Ok (Some "data:", Some ",hello") ∧
  providers Sample.st_file !! "data" = Some (VFun Sample.data) ∧
  Sample.made_by
    (from Sample.node 1 (VStr "data:,hello") (VObj 1%positive) Sample.st_file)
  = Some Sample.file.
Proof. split; [|split]; vm_compute; reflexivity. Qed.

(** Against C2: [hello] is not empty, has no protocol and names no file,
    and no [file] option is set, yet [from('hello', 'bogus')] returns no
    handle: [Buffer.from] does not know the encoding. *)
Lemma unknown_encoding_is_refused :
  Sample.parse "hello" = Ok (None, Some "hello") ∧
  Sample.accessSync "hello" = Throw (SystemError "ENOENT") ∧
  is_true (field (heap Sample.st0) (VStr "bogus") "file") = false ∧
  (from Sample.node 1 (VStr "hello") (VStr "bogus") Sample.st0).2
  = Throw TypeError.
Proof. split; [|split; [|split]]; vm_compute; reflexivity. Qed.

(** Against C3: [Infinity] is a number, not [NaN], and at least zero, yet
    [from(Infinity)] calls no provider: [Buffer.alloc] raises a range
    error. *)
Lemma infinite_length_is_refused :
  isNumber (VNum (Infinity false)) && ge_zero (Infinity false) = true ∧
  (from Sample.node 1 (VNum (Infinity false)) VUndefined Sample.st0).2
  = Throw RangeError.
Proof. split; vm_compute; reflexivity. Qed.

(** Against C4: with [{ file: true }] the empty string does not go to the file
    provider; it reaches the default provider, which is the memory one. *)
Lemma empty_string_ignores_file_option :
  prop (deref (heap Sample.st_file) 1%positive) "file" = VBool true ∧
  provider (providers Sample.st_file) "file" = VFun Sample.file ∧
  provider (providers Sample.st_file) "default" = VFun Sample.memory ∧
  Sample.made_by
    (from Sample.node 1 (VStr "") (VObj 1%positive) Sample.st_file)
  = Some Sample.memory.
Proof. split; [|split; [|split]]; vm_compute; reflexivity. Qed.

(** Against C6: no function of the sample platform throws and all four
    providers are functions, yet [from(Infinity)] raises a range error. *)
Lemma dispatcher_raises_on_infinite_length :
  callable_table Sample.st0 ∧
  (∀ f args st e, (Sample.invoke f args st).2 ≠ Throw e) ∧
  (from Sample.node 1 (VNum (Infinity false)) VUndefined Sample.st0).2
  = Throw RangeError.
Proof.
  split; [by apply table_callable|]. split; [|vm_compute; reflexivity].
  intros f args st e He. destruct (invoke_Ok f args st) as [v Hv].
  congruence.
Qed.

(** Against C7: normalization leaves the frozen record [{}] without an
    [encoding]. *)
Lemma frozen_record_gets_no_encoding :
  heap Cases.st_frozen !! 1%positive = Some empty_object ∧
  1%positive ∈ frozen Cases.st_frozen ∧
  (normalize (VObj 1%positive) Cases.st_frozen).2 = Ok 1%positive ∧
  prop (deref (heap (normalize (VObj 1%positive) Cases.st_frozen).1)
          1%positive) "encoding" = VUndefined.
Proof.
  split; [|split; [|split]]; vm_compute; reflexivity.
Qed.

(** Against C8: [from('hello', {})] with providers that change no object
    leaves ["utf8"] in the caller's record, and probes the file system. *)
Lemma dispatch_writes_encoding_and_probes :
  (∀ f args st, heap st ⊆ heap (Sample.invoke f args st).1) ∧
  heap Sample.st0 !! 1%positive = Some empty_object ∧
  heap (from Sample.node 1 (VStr "hello") (VObj 1%positive) Sample.st0).1
    !! 1%positive
  = Some (Object KPlain {["encoding" := VStr "utf8"]}) ∧
  io Sample.st0 = [] ∧
  io (from Sample.node 1 (VStr "hello") (VObj 1%positive) Sample.st0).1
  = [FsAccess "hello"; Debug (SystemError "ENOENT")].
Proof.
  split; [intros f args st; apply invoke_quiet|].
  split; [|split; [|split]]; vm_compute; reflexivity.
Qed.

(** Against C9: with the number 42 registered for [data:], dispatching
    [data:,hello] does not fail; the handle comes from the memory
    provider. *)
Lemma non_function_provider_is_skipped :
  Sample.parse "data:,hello" = Ok (Some "data:", Some ",hello") ∧
  providers Sample.st_number !! "data" = Some (VNum (Finite 42)) ∧
  Sample.made_by
    (from Sample.node 1 (VStr "data:,hello") VUndefined Sample.st_number)
  = Some Sample.memory.
Proof. split; [|split]; vm_compute; reflexivity. Qed.

(** ** The theorems on the sample platform *)

(** C1 (amended) on [data:,hello] with a function registered for [data:]. *)
Lemma from_custom_protocol_witness :
  ∃ st2 opts,
    normalize VUndefined Sample.st_data = (st2, Ok opts) ∧
    from Sample.node 1 (VStr "data:,hello") VUndefined Sample.st_data
    = apply Sample.node Sample.data [VStr "data:,hello"; VObj opts] st2.
Proof.
  destruct (from_custom_protocol Sample.node 0 "data:,hello" VUndefined
              Sample.st_data "data:" (Some ",hello"))
    as (st2 & opts & Hn & Hf & _);
    [reflexivity|done|reflexivity|reflexivity|right; reflexivity|].
  exists st2, opts. split; [exact Hn|]. apply Hf. reflexivity.
Defined.

(** C2 (amended) on [from('hello')]. *)
Lemma from_string_memory_path_witness :
  ∃ st2 st3 opts,
    normalize VUndefined Sample.st0 = (st2, Ok opts) ∧
    heap st3 = heap st2 ∧ providers st3 = providers st2 ∧
    frozen st3 = frozen st2 ∧
    from Sample.node 1 (VStr "hello") VUndefined Sample.st0 =
      (buffer ← alloc (Object (KBuffer Cases.hello) ∅);
       memory ← providers_get "memory";
       call Sample.node memory [VObj buffer]) st3.
Proof.
  destruct (from_string_memory_path Sample.node 0 "hello" VUndefined
              Sample.st0 (Some "hello"))
    as (st2 & st3 & opts & Hn & Hh & Hp & Hf & Hbytes & _);
    [done|reflexivity|reflexivity| |].
  - right. left. exists (SystemError "ENOENT"). reflexivity.
  - exists st2, st3, opts. split; [exact Hn|]. split; [exact Hh|].
    split; [exact Hp|]. split; [exact Hf|]. apply Hbytes. reflexivity.
Defined.

(** C3 (amended) on [from(16)]. *)
Lemma from_number_dispatch_witness :
  ∃ st2 bytes,
    length bytes = 16%nat ∧ Forall (eq zero_byte) bytes ∧
    from Sample.node 1 (VNum (Finite (inject_Z 16))) VUndefined Sample.st0 =
      (buffer ← alloc (Object (KBuffer bytes) ∅);
       memory ← providers_get "memory";
       call Sample.node memory [VObj buffer]) st2.
Proof.
  destruct (from_number_dispatch Sample.node 0 (Finite (inject_Z 16))
              VUndefined Sample.st0) as (st2 & opts & _ & _ & Hz & _ & _).
  destruct (Hz 16) as (bytes & Hlen & Hzero & Hfrom);
    [reflexivity|simpl; lia|reflexivity|].
  exists st2, bytes. split; [exact Hlen|]. split; [exact Hzero|exact Hfrom].
Defined.

(** C4 (amended) on [from('data:,hello', { file: true })]. *)
Lemma from_file_option_witness :
  ∃ st2,
    normalize (VObj 1%positive) Sample.st_file = (st2, Ok 1%positive) ∧
    from Sample.node 1 (VStr "data:,hello") (VObj 1%positive) Sample.st_file =
      (file ← providers_get "file";
       call Sample.node file [VStr "data:,hello"; VObj 1%positive]) st2.
Proof.
  apply (from_file_option Sample.node 0 "data:,hello" 1%positive
           Sample.st_file (Some "data:", Some ",hello"));
    [done|reflexivity|reflexivity].
Defined.

(** C5 on a readable handle. *)
Lemma from_object_passthrough_witness :
  ∃ st2 opts,
    normalize VUndefined Sample.st_handle = (st2, Ok opts) ∧
    from Sample.node 1 (VObj 2%positive) VUndefined Sample.st_handle
    = (st2, Ok (VObj 2%positive)).
Proof.
  destruct (from_object_passthrough Sample.node 0 2%positive VUndefined
              Sample.st_handle) as (st2 & opts & Hn & Hfrom);
    [reflexivity|].
  exists st2, opts. split; [exact Hn|exact Hfrom].
Defined.

(** C6 (amended) on [from(16)]. *)
Lemma from_raises_conversion_errors_witness :
  ∃ st2 st3 opts buffer,
    normalize VUndefined Sample.st0 = (st2, Ok opts) ∧
    alloc (Object (KBuffer (replicate 16 zero_byte)) ∅) st2
    = (st3, Ok buffer) ∧
    from Sample.node 1 (VNum (Finite (inject_Z 16))) VUndefined Sample.st0
    = apply Sample.node Sample.memory [VObj buffer] st3.
Proof.
  destruct (from_raises_conversion_errors Sample.node 0
              (VNum (Finite (inject_Z 16))) VUndefined Sample.st0)
    as (st2 & opts & Hn & _ & _ & Hnum).
  - by apply table_callable.
  - intros f args st e He. destruct (invoke_Ok f args st) as [v Hv].
    simpl in He. congruence.
  - destruct (Hnum (inject_Z 16))
      as (memory & st3 & buffer & Hmemory & Halloc & Hfrom);
      [reflexivity|discriminate|discriminate|reflexivity|].
    injection Hmemory as <-.
    exists st2, st3, opts, buffer. split; [exact Hn|].
    split; [exact Halloc|exact Hfrom].
Defined.

(** C7 (amended) on the record [{}]. *)
Lemma normalize_encoding_witness :
  ∃ st2,
    normalize (VObj 1%positive) Sample.st0 = (st2, Ok 1%positive) ∧
    heap st2 !! 1%positive
    = Some (Object KPlain {["encoding" := VStr "utf8"]}).
Proof.
  destruct (normalize_encoding (VObj 1%positive) Sample.st0)
    as (st2 & opts & Hn & _ & _ & _ & (-> & _ & Hdefault) & _).
  exists st2. split; [exact Hn|]. apply Hdefault.
  vm_compute. intros H. discriminate H.
Defined.

(** C8 (amended) on [from('hello', {})]. *)
Lemma from_frame_witness :
  providers (from Sample.node 1 (VStr "hello") (VObj 1%positive)
               Sample.st0).1 = providers Sample.st0 ∧
  ∃ evs,
    io (from Sample.node 1 (VStr "hello") (VObj 1%positive) Sample.st0).1
    = io Sample.st0 ++ evs ∧
    Forall (probe_event "hello") evs.
Proof.
  destruct (from_frame Sample.node 0 (VStr "hello") (VObj 1%positive)
              Sample.st0) as (Hp & _ & _ & Hio & _).
  - intros f args st. apply invoke_quiet.
  - split; [exact Hp|]. apply Hio. reflexivity.
Defined.

(** C9 (amended) on [data:,hello] with the number 42 registered for
    [data:]. *)
Lemma from_non_function_provider_witness :
  ∃ st2 opts,
    normalize VUndefined Sample.st_number = (st2, Ok opts) ∧
    from Sample.node 1 (VStr "data:,hello") VUndefined Sample.st_number
    = later_string_rules Sample.node "data:,hello" opts st2.
Proof.
  apply (from_non_function_provider Sample.node 0 "data:,hello" VUndefined
           Sample.st_number "data:" (Some ",hello") (VNum (Finite 42)));
    [reflexivity|done|reflexivity|reflexivity|right; reflexivity
    |reflexivity|reflexivity].
Defined.

(** C10 on the array [[]]. *)
Lemma from_empty_array_witness :
  isBufferLike (heap Sample.st_array) (VObj 2%positive) = true ∧
  ∃ st2 opts,
    normalize VUndefined Sample.st_array = (st2, Ok opts) ∧
    from Sample.node 1 (VObj 2%positive) VUndefined Sample.st_array =
      (buffer ← alloc (Object (KBuffer []) ∅);
       memory ← providers_get "memory";
       call Sample.node memory [VObj buffer]) st2.
Proof.
  apply (from_empty_array Sample.node 0 2%positive ∅ VUndefined
           Sample.st_array).
  reflexivity.
Defined.

(** * Further properties of the dispatcher *)

Section Rules.

Variable P : Platform.

#[local] Arguments isBufferLike : simpl never.
#[local] Arguments deref : simpl never.
#[local] Arguments prop : simpl never.
#[local] Arguments from_object : simpl never.
#[local] Arguments from_bufferLike : simpl never.
#[local] Arguments from_number : simpl never.
#[local] Arguments from_rest : simpl never.
#[local] Arguments from_string : simpl never.
#[local] Arguments from_string_tail : simpl never.
#[local] Arguments from_string_memory : simpl never.
#[local] Arguments from_local_file : simpl never.
#[local] Arguments from_protocol : simpl never.
#[local] Arguments providers_get : simpl never.
#[local] Arguments call : simpl never.
#[local] Arguments alloc : simpl never.

(** ** The rules of a string *)

(** The body of [from] on a string that passes the [file] option. *)
Lemma from_body_string self (s : string) (opts : loc) (st : state)
    (protocol pathname : option string) :
  url_parse P s = Ok (protocol, pathname) →
  s = "" ∨ is_true (prop (deref (heap st) opts) "file") = false →
  from_body P self (VStr s) opts st =
    (r ← from_protocol P s opts protocol pathname;
     match r : option value with
     | Some v => mret v
     | None => later_string_rules P s opts
     end) st.
Proof.
  intros Hparse Hfile.
  assert (Hstr : from_string P s opts st =
    (r ← from_protocol P s opts protocol pathname;
     match r : option value with
     | Some v => mret (Some v)
     | None => from_string_tail P s opts
     end) st).
  { rewrite (from_string_run _ _ _ _ _ _ Hparse).
    by replace (negb _ && _) with false
      by (destruct Hfile as [->| ->]; [done|by rewrite andb_false_r]). }
  unfold from_body. rewrite (bind_ext_l _ _ _ _ Hstr), bind_assoc.
  unfold mbind at 1 3, M_bind at 1 3.
  by destruct (from_protocol P s opts protocol pathname st)
    as [st' [[v|]|e|]].
Qed.

(** X1. A string whose protocol contains [http:] or [https:], dispatched
    without the [file] option, goes to the http provider with the string
    and the options, straight after the options are normalized: the file
    system is not probed, whatever the string names there. *)
Theorem from_http_protocol (fuel : nat) (s : string)
    (optsOrEncoding : value) (st : state) (p : string)
    (pathname : option string) :
  url_parse P s = Ok (Some p, pathname) →
  re_https_test p = true →
  s = "" ∨ is_true (field (heap st) optsOrEncoding "file") = false →
  ∃ st2 opts,
    normalize optsOrEncoding st = (st2, Ok opts) ∧
    io st2 = io st ∧
    from P (S fuel) (VStr s) optsOrEncoding st =
      (http ← providers_get "http";
       call P http [VStr s; VObj opts]) st2.
Proof.
  intros Hparse Hhttp Hopt.
  destruct (from_run P fuel (VStr s) optsOrEncoding st)
    as (h2 & opts & Hrun & Hnorm & ->).
  set (st2 := State h2 (providers st) (io st) (frozen st)).
  exists st2, opts. do 2 (split; [done|]).
  pose proof (option_file_false (heap st) _ _ _ _ _ Hnorm Hopt) as Hopt2.
  rewrite (from_body_string _ s opts st2 _ _ Hparse Hopt2).
  assert (p ≠ "") by (by intros ->).
  unfold from_protocol.
  assert (truthy (VStr p) = true) as ->
    by (simpl; by apply negb_true_iff, String.eqb_neq).
  rewrite Hhttp, bind_assoc, !bind_providers_get. apply returns_run.
Qed.

(** X2. A string whose protocol contains [file:], and neither [http:] nor
    [https:], goes to the file provider with the path of the URL as the only
    argument: the options are not passed on. *)
Theorem from_file_protocol (fuel : nat) (s : string)
    (optsOrEncoding : value) (st : state) (p : string)
    (pathname : option string) :
  url_parse P s = Ok (Some p, pathname) →
  re_https_test p = false →
  re_file_test p = true →
  s = "" ∨ is_true (field (heap st) optsOrEncoding "file") = false →
  ∃ st2 opts,
    normalize optsOrEncoding st = (st2, Ok opts) ∧
    from P (S fuel) (VStr s) optsOrEncoding st =
      (file ← providers_get "file";
       call P file [of_null pathname]) st2.
Proof.
  intros Hparse Hhttp Hfile Hopt.
  destruct (from_run P fuel (VStr s) optsOrEncoding st)
    as (h2 & opts & Hrun & Hnorm & ->).
  set (st2 := State h2 (providers st) (io st) (frozen st)).
  exists st2, opts. split; [done|].
  pose proof (option_file_false (heap st) _ _ _ _ _ Hnorm Hopt) as Hopt2.
  rewrite (from_body_string _ s opts st2 _ _ Hparse Hopt2).
  assert (p ≠ "") by (by intros ->).
  unfold from_protocol.
  assert (truthy (VStr p) = true) as ->
    by (simpl; by apply negb_true_iff, String.eqb_neq).
  rewrite Hhttp, Hfile, bind_assoc, !bind_providers_get. apply returns_run.
Qed.

Lemma from_local_file_found (s : string) (st : state) :
  isBrowser P = false →
  fs_accessSync P s = Ok tt →
  fs_statSync_isFile P s = Ok true →
  from_local_file P s st =
    match call P (provider (providers st) "file") [VStr s] (probed s st) with
    | (st', Ok v) => (st', Ok (Some v))
    | (st', Throw e) => (debugged e st', Ok None)
    | (st', Diverge) => (st', Diverge)
    end.
Proof.
  intros Hb Hacc Hfile. unfold from_local_file. rewrite Hb. simpl.
  unfold try_catch, log, lift, returns, next_rule, fmap, M_fmap, mbind,
    M_bind, mret, M_ret, providers_get, probed, debugged.
  simpl. rewrite Hacc, Hfile. simpl. rewrite <- app_assoc. simpl.
  by destruct (call P _ _ _) as [st' [v|e|]].
Qed.

Lemma later_string_rules_found (s : string) (opts : loc) (st : state) :
  isBrowser P = false →
  fs_accessSync P s = Ok tt →
  fs_statSync_isFile P s = Ok true →
  later_string_rules P s opts st =
    match call P (provider (providers st) "file") [VStr s] (probed s st) with
    | (st', Ok v) => (st', Ok v)
    | (st', Throw e) =>
        (r ← from_string_memory P s opts;
         match r : option value with
         | Some v => mret v
         | None =>
             default ← providers_get "default";
             call P default [VStr s; VObj opts]
         end) (debugged e st')
    | (st', Diverge) => (st', Diverge)
    end.
Proof.
  intros Hb Hacc Hfile. unfold later_string_rules, from_string_tail.
  rewrite bind_assoc. unfold mbind at 1, M_bind at 1.
  rewrite (from_local_file_found s st Hb Hacc Hfile).
  by destruct (call P _ _ _) as [st' [v|e|]].
Qed.

(** X3. Outside a browser, a string with no protocol that names a regular
    file goes to the file provider with the string as the only argument,
    once [accessSync] and [statSync] are logged; what the provider returns
    is the result. *)
Theorem from_existing_file (fuel : nat) (s : string)
    (optsOrEncoding : value) (st : state) (pathname : option string) :
  url_parse P s = Ok (None, pathname) →
  s = "" ∨ is_true (field (heap st) optsOrEncoding "file") = false →
  isBrowser P = false →
  fs_accessSync P s = Ok tt →
  fs_statSync_isFile P s = Ok true →
  ∃ st2 opts,
    normalize optsOrEncoding st = (st2, Ok opts) ∧
    ∀ st' v,
      call P (provider (providers st) "file") [VStr s] (probed s st2)
        = (st', Ok v) →
      from P (S fuel) (VStr s) optsOrEncoding st = (st', Ok v).
Proof.
  intros Hparse Hopt Hb Hacc Hfile.
  destruct (from_run P fuel (VStr s) optsOrEncoding st)
    as (h2 & opts & Hrun & Hnorm & ->).
  set (st2 := State h2 (providers st) (io st) (frozen st)).
  exists st2, opts. split; [done|]. intros st' v Hcall.
  pose proof (option_file_false (heap st) _ _ _ _ _ Hnorm Hopt) as Hopt2.
  rewrite (from_body_string _ s opts st2 _ _ Hparse Hopt2).
  change ((r ← from_protocol P s opts None pathname;
           match r : option value with
           | Some v => mret v
           | None => later_string_rules P s opts
           end) st2) with (later_string_rules P s opts st2).
  rewrite (later_string_rules_found s opts st2 Hb Hacc Hfile).
  change (providers st2) with (providers st). by rewrite Hcall.
Qed.

(** X4. In that case an error thrown by the file provider does not reach the
    caller: it is logged, and a non-empty string then goes to the memory
    provider as the bytes of the string. *)
Theorem from_file_provider_error (fuel : nat) (s : string)
    (optsOrEncoding : value) (st : state) (pathname : option string) :
  s ≠ "" →
  url_parse P s = Ok (None, pathname) →
  is_true (field (heap st) optsOrEncoding "file") = false →
  isBrowser P = false →
  fs_accessSync P s = Ok tt →
  fs_statSync_isFile P s = Ok true →
  ∃ st2 opts,
    normalize optsOrEncoding st = (st2, Ok opts) ∧
    ∀ st' e,
      call P (provider (providers st) "file") [VStr s] (probed s st2)
        = (st', Throw e) →
      from P (S fuel) (VStr s) optsOrEncoding st =
        (encoding ← get opts "encoding";
         bytes ← lift (Buffer_from_string P s encoding);
         buffer ← alloc (Object (KBuffer bytes) ∅);
         memory ← providers_get "memory";
         call P memory [VObj buffer]) (debugged e st').
Proof.
  intros Hs Hparse Hopt Hb Hacc Hfile.
  destruct (from_run P fuel (VStr s) optsOrEncoding st)
    as (h2 & opts & Hrun & Hnorm & ->).
  set (st2 := State h2 (providers st) (io st) (frozen st)).
  exists st2, opts. split; [done|]. intros st' e Hcall.
  assert (Hopt2 : s = "" ∨ is_true (prop (deref h2 opts) "file") = false)
    by (right; by rewrite (norm_field _ _ _ _ Hnorm)).
  rewrite (from_body_string _ s opts st2 _ _ Hparse Hopt2).
  change ((r ← from_protocol P s opts None pathname;
           match r : option value with
           | Some v => mret v
           | None => later_string_rules P s opts
           end) st2) with (later_string_rules P s opts st2).
  rewrite (later_string_rules_found s opts st2 Hb Hacc Hfile).
  change (providers st2) with (providers st). rewrite Hcall.
  unfold from_string_memory.
  assert ((0 <? Z.of_nat (String.length s)) = true) as ->
    by (destruct s; [done|apply Z.ltb_lt; simpl; lia]).
  unfold get, lift, returns, fmap, M_fmap, providers_get, mbind, M_bind,
    mret, M_ret. simpl.
  destruct (Buffer_from_string _ _ _) as [bytes|err|]; try done.
  by destruct (call P (provider (providers st') "memory") _ _)
    as [st6 [v|err|]].
Qed.

(** X5. The empty string goes to the default provider, with the options,
    whatever they are: it passes the [file] option and, having no protocol
    and naming no file, is not turned into a buffer. *)
Theorem from_empty_string (fuel : nat) (optsOrEncoding : value) (st : state)
    (pathname : option string) :
  url_parse P "" = Ok (None, pathname) →
  no_regular_file P "" →
  ∃ st2 st3 opts,
    normalize optsOrEncoding st = (st2, Ok opts) ∧
    heap st3 = heap st2 ∧ providers st3 = providers st2 ∧
    from P (S fuel) (VStr "") optsOrEncoding st =
      (default ← providers_get "default";
       call P default [VStr ""; VObj opts]) st3.
Proof.
  intros Hparse Hno.
  destruct (from_run P fuel (VStr "") optsOrEncoding st)
    as (h2 & opts & Hrun & Hnorm & ->).
  set (st2 := State h2 (providers st) (io st) (frozen st)).
  destruct (from_local_file_none P "" st2 Hno) as [evs Hprobe].
  exists st2, (State h2 (providers st) (io st ++ evs) (frozen st)), opts.
  do 3 (split; [done|]).
  rewrite (from_body_later P _ "" opts st2 _ _ Hparse);
    [|by left|done].
  unfold later_string_rules, from_string_tail.
  by rewrite bind_assoc, (bind_Ok _ _ _ _ _ Hprobe).
Qed.

(** ** Input that is no string *)

Lemma normalize_record (optsOrEncoding : value) (st st2 : state)
    (opts : loc) :
  normalize optsOrEncoding st = (st2, Ok opts) →
  match optsOrEncoding with
  | VObj l => opts = l
  | _ => heap st !! opts = None
  end.
Proof.
  destruct (options_record_run optsOrEncoding st)
    as (h1 & opts' & Hrec & _ & _ & Hopts).
  unfold normalize. rewrite (bind_Ok _ _ _ _ _ Hrec).
  unfold mbind, M_bind. rewrite default_encoding_run. simpl.
  intros [= _ <-]. destruct optsOrEncoding; by destruct Hopts.
Qed.

(** X6. An input that is no string, number, object or function, the absent
    one included, goes to the default provider with the input and the
    options; the options record is the caller's own when the caller gave
    one, and a new one otherwise. *)
Theorem from_unclassified (fuel : nat) (input optsOrEncoding : value)
    (st : state) :
  unclassified input = true →
  ∃ st2 opts,
    normalize optsOrEncoding st = (st2, Ok opts) ∧
    match optsOrEncoding with
    | VObj l => opts = l
    | _ => heap st !! opts = None
    end ∧
    from P (S fuel) input optsOrEncoding st =
      (default ← providers_get "default";
       call P default [input; VObj opts]) st2.
Proof.
  intros Hin.
  destruct (from_run P fuel input optsOrEncoding st)
    as (h2 & opts & Hrun & Hnorm & ->).
  eexists _, opts. split; [done|].
  split; [by apply (normalize_record _ _ _ _ Hrun)|].
  by destruct input.
Qed.

(** The body of [from] on a buffer-like object. *)
Lemma from_run_bufferLike (fuel : nat) (l : loc) (optsOrEncoding : value)
    (st : state) :
  isBufferLike (heap st) (VObj l) = true →
  ∃ h2 opts,
    normalize optsOrEncoding st
      = (State h2 (providers st) (io st) (frozen st), Ok opts) ∧
    normalized optsOrEncoding st h2 opts ∧
    from P (S fuel) (VObj l) optsOrEncoding st =
      (bytes ← match ArrayBuffer_region h2 (VObj l) with
               | Some region =>
                   byteOffset ← get opts "byteOffset";
                   length ← get opts "length";
                   lift (Buffer_from_arrayBuffer P region
                           (or_zero byteOffset) length)
               | None => lift (Buffer_from_object P h2 (VObj l))
               end;
       buffer ← alloc (Object (KBuffer bytes) ∅);
       memory ← providers_get "memory";
       call P memory [VObj buffer]) (State h2 (providers st) (io st) (frozen st)).
Proof.
  intros Hlike.
  destruct (from_run P fuel (VObj l) optsOrEncoding st)
    as (h2 & opts & Hrun & Hnorm & ->).
  exists h2, opts. do 2 (split; [done|]).
  rewrite from_body_not_string by done.
  unfold from_rest. simpl. unfold mbind at 1, M_bind at 1, get_heap. simpl.
  by rewrite (isBufferLike_same _ _ _ (norm_same _ _ _ _ Hnorm)), Hlike.
Qed.

(** X7. An [ArrayBuffer] goes to the memory provider as the bytes that
    [Buffer.from] takes from it, from the [byteOffset] of the options, or
    zero when that is missing or falsy, for the [length] of the options. *)
Theorem from_arrayBuffer (fuel : nat) (l : loc) (region : list byte)
    (props : gmap string value) (optsOrEncoding : value) (st : state) :
  heap st !! l = Some (Object (KArrayBuffer region) props) →
  ∃ st2 opts,
    normalize optsOrEncoding st = (st2, Ok opts) ∧
    from P (S fuel) (VObj l) optsOrEncoding st =
      (bytes ← lift (Buffer_from_arrayBuffer P region
                       (or_zero (field (heap st) optsOrEncoding "byteOffset"))
                       (field (heap st) optsOrEncoding "length"));
       buffer ← alloc (Object (KBuffer bytes) ∅);
       memory ← providers_get "memory";
       call P memory [VObj buffer]) st2.
Proof.
  intros Hl.
  destruct (from_run_bufferLike fuel l optsOrEncoding st)
    as (h2 & opts & Hrun & Hnorm & ->).
  { unfold isBufferLike. by rewrite (deref_lookup _ _ _ Hl). }
  eexists _, opts. split; [done|].
  destruct (norm_same _ _ _ _ Hnorm l) as [Hkind _].
  rewrite (deref_lookup _ _ _ Hl) in Hkind. simpl in Hkind.
  unfold ArrayBuffer_region. rewrite Hkind.
  rewrite !bind_assoc. unfold mbind at 1, M_bind at 1, get. simpl.
  rewrite !bind_assoc. unfold mbind at 1, M_bind at 1. simpl.
  by rewrite !(norm_field _ _ _ _ Hnorm).
Qed.

(** X8. A [Buffer] goes to the memory provider as a copy: a new buffer with
    the same bytes, at a reference other than the input's.  Flags such as
    [readable] on the buffer make no difference. *)
Theorem from_buffer_copy (fuel : nat) (l : loc) (bytes : list byte)
    (props : gmap string value) (optsOrEncoding : value) (st : state) :
  heap st !! l = Some (Object (KBuffer bytes) props) →
  ∃ st2 st3 opts buffer,
    normalize optsOrEncoding st = (st2, Ok opts) ∧
    alloc (Object (KBuffer bytes) ∅) st2 = (st3, Ok buffer) ∧
    buffer ≠ l ∧
    from P (S fuel) (VObj l) optsOrEncoding st =
      (memory ← providers_get "memory";
       call P memory [VObj buffer]) st3.
Proof.
  intros Hl.
  destruct (from_run_bufferLike fuel l optsOrEncoding st)
    as (h2 & opts & Hrun & Hnorm & ->).
  { unfold isBufferLike. by rewrite (deref_lookup _ _ _ Hl). }
  eexists _, _, opts, _. split; [done|]. split; [done|]. split.
  - intros Heq. pose proof (fresh_unused h2 (frozen st)) as Hfresh.
    unfold alloc in Heq. simpl in Heq. rewrite Heq in Hfresh.
    by rewrite (norm_frame _ _ _ _ Hnorm l _ Hl) in Hfresh.
  - destruct (norm_same _ _ _ _ Hnorm l) as [Hkind _].
    rewrite (deref_lookup _ _ _ Hl) in Hkind. simpl in Hkind.
    unfold ArrayBuffer_region, Buffer_from_object. by rewrite Hkind.
Qed.

Lemma byte_of_Z_to_N (b : byte) : byte_of_Z (Z.of_N (Byte.to_N b)) = b.
Proof.
  unfold byte_of_Z. pose proof (Byte.to_N_bounded b) as Hb.
  rewrite Z.mod_small by lia. by rewrite N2Z.id, Byte.of_to_N.
Qed.

Lemma array_of_bytes_numbers (bytes : list byte) :
  forallb isNumber (array_of_bytes bytes) = true.
Proof. by induction bytes. Qed.

Lemma array_of_bytes_ToUint8 (bytes : list byte) :
  map (λ v, ToUint8 (number_of v)) (array_of_bytes bytes) = bytes.
Proof.
  induction bytes as [|b bytes IH]; [done|]. simpl. rewrite IH. f_equal.
  rewrite Z.quot_1_r. apply byte_of_Z_to_N.
Qed.

(** X9. The array of the bytes of a buffer goes to the memory provider as a
    new buffer with exactly those bytes. *)
Theorem from_byte_array (fuel : nat) (l : loc) (bytes : list byte)
    (props : gmap string value) (optsOrEncoding : value) (st : state) :
  heap st !! l = Some (Object (KArray (array_of_bytes bytes)) props) →
  ∃ st2 opts,
    normalize optsOrEncoding st = (st2, Ok opts) ∧
    from P (S fuel) (VObj l) optsOrEncoding st =
      (buffer ← alloc (Object (KBuffer bytes) ∅);
       memory ← providers_get "memory";
       call P memory [VObj buffer]) st2.
Proof.
  intros Hl.
  destruct (from_run_bufferLike fuel l optsOrEncoding st)
    as (h2 & opts & Hrun & Hnorm & ->).
  { unfold isBufferLike, isArray, elements.
    rewrite (deref_lookup _ _ _ Hl). simpl.
    rewrite array_of_bytes_numbers. apply orb_true_r. }
  eexists _, opts. split; [done|].
  destruct (norm_same _ _ _ _ Hnorm l) as [Hkind _].
  rewrite (deref_lookup _ _ _ Hl) in Hkind. simpl in Hkind.
  unfold ArrayBuffer_region, Buffer_from_object, from_elements.
  rewrite Hkind, array_of_bytes_numbers, array_of_bytes_ToUint8. done.
Qed.

(** X10. So does the JSON form of a buffer, a record with the [type]
    ["Buffer"] and the array of the bytes as its [data]. *)
Theorem from_json_buffer (fuel : nat) (l d : loc) (bytes : list byte)
    (props dprops : gmap string value) (optsOrEncoding : value)
    (st : state) :
  heap st !! l = Some (Object KPlain props) →
  props !! "type" = Some (VStr "Buffer") →
  props !! "data" = Some (VObj d) →
  props !! "length" = None →
  heap st !! d = Some (Object (KArray (array_of_bytes bytes)) dprops) →
  ∃ st2 opts,
    normalize optsOrEncoding st = (st2, Ok opts) ∧
    from P (S fuel) (VObj l) optsOrEncoding st =
      (buffer ← alloc (Object (KBuffer bytes) ∅);
       memory ← providers_get "memory";
       call P memory [VObj buffer]) st2.
Proof.
  intros Hl Htype Hdata Hlength Hd.
  assert (Hprop : ∀ k v, props !! k = Some v → prop (deref (heap st) l) k = v).
  { intros k v Hk. rewrite (deref_lookup _ _ _ Hl). unfold prop. simpl.
    by rewrite Hk. }
  destruct (from_run_bufferLike fuel l optsOrEncoding st)
    as (h2 & opts & Hrun & Hnorm & ->).
  { unfold isBufferLike. rewrite (Hprop _ _ Htype), (Hprop _ _ Hdata).
    rewrite (deref_lookup _ _ _ Hl). simpl. try unfold isArray.
    by rewrite (deref_lookup _ _ _ Hd). }
  eexists _, opts. split; [done|].
  destruct (norm_same _ _ _ _ Hnorm l) as [Hkind Hsame].
  rewrite (deref_lookup _ _ _ Hl) in Hkind. simpl in Hkind.
  unfold ArrayBuffer_region, Buffer_from_object. rewrite Hkind.
  rewrite !Hsame by done. rewrite (Hprop _ _ Hdata).
  assert (prop (deref (heap st) l) "length" = VUndefined) as ->.
  { rewrite (deref_lookup _ _ _ Hl). unfold prop. simpl. by rewrite Hlength. }
  rewrite (elements_same _ _ (VObj d) (norm_same _ _ _ _ Hnorm)).
  unfold elements, from_elements. rewrite (deref_lookup _ _ _ Hd). simpl.
  by rewrite array_of_bytes_numbers, array_of_bytes_ToUint8.
Qed.

(** X11. An array with an element that is not a number, [NaN] included, and
    without the [type] of a JSON buffer, is not buffer-like: it goes on to
    the object rule, like any other object. *)
Theorem from_mixed_array (fuel : nat) (l : loc) (es : list value)
    (props : gmap string value) (optsOrEncoding : value) (st : state) :
  heap st !! l = Some (Object (KArray es) props) →
  forallb isNumber es = false →
  props !! "type" = None →
  isBufferLike (heap st) (VObj l) = false ∧
  ∃ st2 opts,
    normalize optsOrEncoding st = (st2, Ok opts) ∧
    from P (S fuel) (VObj l) optsOrEncoding st = from_object P l st2.
Proof.
  intros Hl Hes Htype.
  assert (Hlike : isBufferLike (heap st) (VObj l) = false).
  { unfold isBufferLike, isArray, elements.
    rewrite (deref_lookup _ _ _ Hl). simpl. rewrite Hes.
    unfold prop. simpl. by rewrite Htype. }
  split; [done|].
  destruct (from_run P fuel (VObj l) optsOrEncoding st)
    as (h2 & opts & Hrun & Hnorm & ->).
  eexists _, opts. split; [done|].
  rewrite from_body_not_string by done.
  unfold from_rest. simpl. unfold mbind at 1, M_bind at 1, get_heap. simpl.
  by rewrite (isBufferLike_same _ _ _ (norm_same _ _ _ _ Hnorm)), Hlike.
Qed.

(** ** Factories and the recursion *)

(** A function given as input is called once, with the normalized options
    as its only argument, and what it returns is dispatched in turn with
    that same options record. *)
Lemma from_factory_rule (fuel : nat) (f : fn) (optsOrEncoding : value)
    (st : state) :
  ∃ st2 opts,
    normalize optsOrEncoding st = (st2, Ok opts) ∧
    from P (S fuel) (VFun f) optsOrEncoding st =
      (next ← apply P f [VObj opts];
       from P fuel next (VObj opts)) st2.
Proof.
  destruct (from_run P fuel (VFun f) optsOrEncoding st)
    as (h2 & opts & Hrun & Hnorm & ->).
  by eexists _, opts.
Qed.

(** X12. A factory that returns itself is never done: however much room
    the stack has, the dispatch ends in the range error of the exhausted
    stack, and returns no handle. *)
Theorem from_factory_loop (f : fn) (fuel : nat) (optsOrEncoding : value)
    (st : state) :
  (∀ args st, (apply P f args st).2 = Ok (VFun f)) →
  (from P fuel (VFun f) optsOrEncoding st).2 = Throw StackOverflow.
Proof.
  intros Hloop. revert optsOrEncoding st.
  induction fuel as [|fuel IH]; intros optsOrEncoding st; [done|].
  destruct (from_run P fuel (VFun f) optsOrEncoding st)
    as (h2 & opts & Hrun & Hnorm & ->).
  rewrite from_body_not_string by done.
  unfold from_rest. simpl. unfold mbind, M_bind, get_heap, call. simpl.
  pose proof (Hloop [VObj opts]
                (State h2 (providers st) (io st) (frozen st))) as Hf.
  destruct (apply P f _ _) as [st3 r]. simpl in Hf. subst r. apply IH.
Qed.

(** X14. Normalizing is idempotent: done again on the record it returned,
    as the recursion does, it returns the same record and changes no
    object, nor the provider table or the log. *)
Theorem normalize_idempotent (optsOrEncoding : value) (st : state) :
  ∃ st2 st3 opts,
    normalize optsOrEncoding st = (st2, Ok opts) ∧
    normalize (VObj opts) st2 = (st3, Ok opts) ∧
    heap st2 ⊆ heap st3 ∧
    providers st3 = providers st2 ∧ io st3 = io st2.
Proof.
  destruct (normalize_run optsOrEncoding st) as (h2 & opts & Hrun & Hnorm).
  destruct (normalized_again _ _
              (State h2 (providers st) (io st) (frozen st)) _ _ Hnorm)
    as (h3 & Hagain & Hsub); [done..|].
  by eexists _, _, opts.
Qed.

(** ** The table of [providers.js] *)

(** X15. With the table that [providers.js] exports, whose default provider
    is the memory one, an input that is no string, number, object or
    function is handed to [random-access-memory]; and when the modules it
    requires are functions, the four built-in entries are callable. *)
Theorem from_exported_default (fuel : nat) (input optsOrEncoding : value)
    (st : state) (ram : fn) (rah raw raf : value) :
  providers st = providers_exports (isBrowser P) (VFun ram) rah raw raf →
  unclassified input = true →
  (is_function rah = true → is_function raw = true →
   is_function raf = true → callable_table st) ∧
  ∃ st2 opts,
    normalize optsOrEncoding st = (st2, Ok opts) ∧
    from P (S fuel) input optsOrEncoding st
    = apply P ram [input; VObj opts] st2.
Proof.
  intros Htable Hin. split.
  - intros Hh Hw Hf name Hname. rewrite Htable.
    unfold providers_exports, providers_js, builtin_names in *.
    destruct rah, raw, raf; try done.
    repeat (apply elem_of_cons in Hname as [->|Hname]);
      try (by apply elem_of_nil in Hname);
      destruct (isBrowser P); by eexists.
  - destruct (from_run P fuel input optsOrEncoding st)
      as (h2 & opts & Hrun & Hnorm & ->).
    eexists _, opts. split; [done|].
    assert (Hdefault :
      provider (providers st) "default" = VFun ram).
    { rewrite Htable. apply provider_own. by destruct (isBrowser P). }
    destruct input; try done;
      rewrite from_body_not_string by done;
      unfold from_rest; simpl;
      unfold mbind at 1, M_bind at 1, get_heap; simpl;
      rewrite bind_providers_get;
      change (providers (State h2 (providers st) (io st) (frozen st)))
        with (providers st);
      by rewrite Hdefault.
Qed.

End Rules.

(** ** The further properties on the sample platforms *)

(** X1 on [http://example.com/a]. *)
Lemma from_http_protocol_witness :
  ∃ st2 opts,
    normalize VUndefined Sample.st0 = (st2, Ok opts) ∧
    io st2 = io Sample.st0 ∧
    from Sample.node 1 (VStr "http://example.com/a") VUndefined Sample.st0 =
      (http ← providers_get "http";
       call Sample.node http [VStr "http://example.com/a"; VObj opts]) st2.
Proof.
  apply (from_http_protocol Sample.node 0 "http://example.com/a" VUndefined
           Sample.st0 "http:" (Some "/a"));
    [reflexivity|reflexivity|right; reflexivity].
Defined.

(** X2 on [file:///etc/hosts]. *)
Lemma from_file_protocol_witness :
  ∃ st2 opts,
    normalize VUndefined Sample.st0 = (st2, Ok opts) ∧
    from Sample.node 1 (VStr "file:///etc/hosts") VUndefined Sample.st0 =
      (file ← providers_get "file";
       call Sample.node file [VStr "/etc/hosts"]) st2.
Proof.
  apply (from_file_protocol Sample.node 0 "file:///etc/hosts" VUndefined
           Sample.st0 "file:" (Some "/etc/hosts"));
    [reflexivity|reflexivity|reflexivity|right; reflexivity].
Defined.

(** X3 on [/etc/hosts]. *)
Lemma from_existing_file_witness :
  ∃ st' v,
    from Sample.node 1 (VStr "/etc/hosts") VUndefined Sample.st0
    = (st', Ok v).
Proof.
  destruct (from_existing_file Sample.node 0 "/etc/hosts" VUndefined
              Sample.st0 (Some "/etc/hosts"))
    as (st2 & opts & Hn & Hfrom);
    [reflexivity|right; reflexivity|reflexivity|reflexivity|reflexivity|].
  vm_compute in Hn. injection Hn as <- <-.
  eexists _, _. apply Hfrom. vm_compute. reflexivity.
Defined.

(** X4 on [/etc/hosts] with a file provider that throws. *)
Lemma from_file_provider_error_witness :
  Sample.made_by
    (from Cases.faulty 1 (VStr "/etc/hosts") VUndefined Sample.st0)
  = Some Sample.memory.
Proof.
  destruct (from_file_provider_error Cases.faulty 0 "/etc/hosts" VUndefined
              Sample.st0 (Some "/etc/hosts"))
    as (st2 & opts & Hn & Hfrom);
    [done|reflexivity|reflexivity|reflexivity|reflexivity|reflexivity|].
  vm_compute in Hn. injection Hn as <- <-.
  erewrite Hfrom by (vm_compute; reflexivity).
  vm_compute. reflexivity.
Defined.

(** X5 on [from('', { file: true })]. *)
Lemma from_empty_string_witness :
  ∃ st2 st3 opts,
    normalize (VObj 1%positive) Sample.st_file = (st2, Ok opts) ∧
    heap st3 = heap st2 ∧ providers st3 = providers st2 ∧
    from Sample.node 1 (VStr "") (VObj 1%positive) Sample.st_file =
      (default ← providers_get "default";
       call Sample.node default [VStr ""; VObj opts]) st3.
Proof.
  apply (from_empty_string Sample.node 0 (VObj 1%positive) Sample.st_file
           None); [reflexivity|].
  right. left. exists (SystemError "ENOENT"). reflexivity.
Defined.

(** X6 on [from()]. *)
Lemma from_unclassified_witness :
  ∃ st2 opts,
    normalize VUndefined Sample.st0 = (st2, Ok opts) ∧
    heap Sample.st0 !! opts = None ∧
    from Sample.node 1 VUndefined VUndefined Sample.st0 =
      (default ← providers_get "default";
       call Sample.node default [VUndefined; VObj opts]) st2.
Proof.
  apply (from_unclassified Sample.node 0 VUndefined VUndefined Sample.st0).
  reflexivity.
Defined.

(** X7 on an [ArrayBuffer] holding [hello]. *)
Lemma from_arrayBuffer_witness :
  ∃ st2 opts,
    normalize VUndefined Cases.st_region = (st2, Ok opts) ∧
    from Sample.node 1 (VObj 2%positive) VUndefined Cases.st_region =
      (bytes ← lift (Buffer_from_arrayBuffer Sample.node Cases.hello
                       (or_zero VUndefined) VUndefined);
       buffer ← alloc (Object (KBuffer bytes) ∅);
       memory ← providers_get "memory";
       call Sample.node memory [VObj buffer]) st2.
Proof.
  apply (from_arrayBuffer Sample.node 0 2%positive Cases.hello ∅ VUndefined
           Cases.st_region).
  reflexivity.
Defined.

(** X8 on a readable buffer. *)
Lemma from_buffer_copy_witness :
  ∃ st2 st3 opts buffer,
    normalize VUndefined Cases.st_buffer = (st2, Ok opts) ∧
    alloc (Object (KBuffer Cases.hello) ∅) st2 = (st3, Ok buffer) ∧
    buffer ≠ 2%positive ∧
    from Sample.node 1 (VObj 2%positive) VUndefined Cases.st_buffer =
      (memory ← providers_get "memory";
       call Sample.node memory [VObj buffer]) st3.
Proof.
  apply (from_buffer_copy Sample.node 0 2%positive Cases.hello
           {["readable" := VBool true]} VUndefined Cases.st_buffer).
  reflexivity.
Defined.

(** X9 on the array of the bytes of [hello]. *)
Lemma from_byte_array_witness :
  ∃ st2 opts,
    normalize VUndefined Cases.st_bytes = (st2, Ok opts) ∧
    from Sample.node 1 (VObj 2%positive) VUndefined Cases.st_bytes =
      (buffer ← alloc (Object (KBuffer Cases.hello) ∅);
       memory ← providers_get "memory";
       call Sample.node memory [VObj buffer]) st2.
Proof.
  apply (from_byte_array Sample.node 0 2%positive Cases.hello ∅ VUndefined
           Cases.st_bytes).
  reflexivity.
Defined.

(** X10 on the JSON form of the buffer of [hello]. *)
Lemma from_json_buffer_witness :
  ∃ st2 opts,
    normalize VUndefined Cases.st_json = (st2, Ok opts) ∧
    from Sample.node 1 (VObj 2%positive) VUndefined Cases.st_json =
      (buffer ← alloc (Object (KBuffer Cases.hello) ∅);
       memory ← providers_get "memory";
       call Sample.node memory [VObj buffer]) st2.
Proof.
  apply (from_json_buffer Sample.node 0 2%positive 3%positive Cases.hello
           (<["type" := VStr "Buffer"]> {["data" := VObj 3%positive]}) ∅
           VUndefined Cases.st_json); reflexivity.
Defined.

(** X11 on the array [[NaN]]. *)
Lemma from_mixed_array_witness :
  isBufferLike (heap Cases.st_nan) (VObj 2%positive) = false ∧
  ∃ st2 opts,
    normalize VUndefined Cases.st_nan = (st2, Ok opts) ∧
    from Sample.node 1 (VObj 2%positive) VUndefined Cases.st_nan
    = from_object Sample.node 2%positive st2.
Proof.
  apply (from_mixed_array Sample.node 0 2%positive [VNum NaN] ∅ VUndefined
           Cases.st_nan); reflexivity.
Defined.

(** X12 on the factory that returns itself. *)
Lemma from_factory_loop_witness :
  (from Cases.faulty 7 (VFun Cases.loop) VUndefined Sample.st0).2
  = Throw StackOverflow.
Proof.
  apply (from_factory_loop Cases.faulty Cases.loop 7 VUndefined Sample.st0).
  intros args st. reflexivity.
Defined.

(** X15 on [from()] with the table of [providers.js]. *)
Lemma from_exported_default_witness :
  ∃ st2 opts,
    normalize VUndefined Sample.st0 = (st2, Ok opts) ∧
    from Sample.node 1 VUndefined VUndefined Sample.st0
    = apply Sample.node Sample.memory [VUndefined; VObj opts] st2.
Proof.
  destruct (from_exported_default Sample.node 0 VUndefined VUndefined
              Sample.st0 Sample.memory (VFun Sample.http) VNull
              (VFun Sample.file)) as [_ Hfrom];
    [reflexivity|reflexivity|].
  exact Hfrom.
Defined.
